(** * EchoLoop: the voice-recorder screen and the permission-gated toggle

    A shallow embedding of [app/(tabs)/explore.tsx] (component [Explore]) and
    of the small [App] component with its [toggleRecording] handler.

    React state cells and refs become fields of a record, the asynchronous
    handlers become computations in a state monad with JavaScript completions
    (normal, [return], [throw]), and every call into expo-av or [Alert] is
    appended to an effect log.  The outcome of each platform call (resolve or
    reject, and the resolved value) is supplied by an oracle record, so the
    theorems quantify over every behaviour of the platform. *)

From Stdlib Require Import ZArith String Ascii List DecimalString Lia.
From Stdlib Require DecimalPos DecimalZ.
From stdpp Require Import gmap strings list.

Open Scope Z_scope.

(** ** JavaScript helpers used by the component *)

Module Js.

(** [Number.prototype.toString] on an integer-valued number. *)
Definition toString (z : Z) : string :=
  NilZero.string_of_int (Z.to_int z).

(** [padString] repeated [n] times. *)
Fixpoint repeat_string (n : nat) (p : string) : string :=
  match n with
  | O => EmptyString
  | S k => String.append p (repeat_string k p)
  end.

(** [String.prototype.padStart (targetLength, padString)]: nothing is added
    when the string is long enough or the pad is empty; otherwise the pad is
    repeated and truncated to the missing length. *)
Definition padStart (targetLength : nat) (padString : string) (s : string)
  : string :=
  let len := String.length s in
  if (targetLength <=? len)%nat then s
  else match padString with
       | EmptyString => s
       | _ =>
           let fillLen := (targetLength - len)%nat in
           String.append
             (String.substring 0 fillLen (repeat_string fillLen padString)) s
       end.

(** Truthiness of a [string | null] value: [null] and the empty string are
    falsy. *)
Definition truthy (v : option string) : bool :=
  match v with
  | None => false
  | Some EmptyString => false
  | Some _ => true
  end.

(** [v ?? d]. *)
Definition nullish {A} (v : option A) (d : A) : A :=
  match v with Some a => a | None => d end.

(** Completion of a statement list: it falls through, hits [return], or
    throws. *)
Inductive completion (A : Type) : Type :=
| Normal (a : A)
| Return
| Throw (err : string).
Arguments Normal {A} a.
Arguments Return {A}.
Arguments Throw {A} err.

(** What an awaited promise does: resolve with a value or reject. *)
Inductive outcome (A : Type) : Type :=
| Resolved (a : A)
| Rejected (err : string).
Arguments Resolved {A} a.
Arguments Rejected {A} err.

End Js.

Import Js.

(** ** Duration formatting *)

(** [formatMillis] of [Explore].  On integers [Math.floor (a / b)] with
    [b > 0] is [Z.div] and [%] is the truncating [Z.rem]. *)
Definition formatMillis (ms : Z) : string :=
  let totalSec := ms / 1000 in
  let m := totalSec / 60 in
  let s := Z.rem totalSec 60 in
  String.append (toString m)
    (String.append ":" (padStart 2 "0" (toString s))).

(** The decimal digit character of [d], for [0 <= d <= 9]. *)
Definition digit (d : Z) : ascii := ascii_of_nat (48 + Z.to_nat d).

(** A number below one hundred written with exactly two digits. *)
Definition two_digits (s : Z) : string :=
  String (digit (s / 10)) (String (digit (s mod 10)) EmptyString).

(** ** The recorder/player screen: [Explore] *)

Module Explore.

(** The [useState] cells and the two [useRef] slots of the component.
    Platform objects ([Audio.Recording], [Audio.Sound]) are identified by a
    number chosen by the platform. *)
Record State : Type := mkState {
  isRecording : bool;
  isPreparing : bool;
  recordingUri : option string;
  recordingDurationMillis : Z;
  recordingRef : option nat;
  playbackRef : option nat;
  isPlaying : bool;
  loadingPlay : bool
}.

(** The values passed to [useState] and [useRef] on mount. *)
Definition initial : State :=
  {| isRecording := false; isPreparing := false; recordingUri := None;
     recordingDurationMillis := 0; recordingRef := None; playbackRef := None;
     isPlaying := false; loadingPlay := false |}.

Definition with_isRecording (b : bool) (s : State) : State :=
  {| isRecording := b; isPreparing := isPreparing s;
     recordingUri := recordingUri s;
     recordingDurationMillis := recordingDurationMillis s;
     recordingRef := recordingRef s; playbackRef := playbackRef s;
     isPlaying := isPlaying s; loadingPlay := loadingPlay s |}.

Definition with_isPreparing (b : bool) (s : State) : State :=
  {| isRecording := isRecording s; isPreparing := b;
     recordingUri := recordingUri s;
     recordingDurationMillis := recordingDurationMillis s;
     recordingRef := recordingRef s; playbackRef := playbackRef s;
     isPlaying := isPlaying s; loadingPlay := loadingPlay s |}.

Definition with_recordingUri (u : option string) (s : State) : State :=
  {| isRecording := isRecording s; isPreparing := isPreparing s;
     recordingUri := u;
     recordingDurationMillis := recordingDurationMillis s;
     recordingRef := recordingRef s; playbackRef := playbackRef s;
     isPlaying := isPlaying s; loadingPlay := loadingPlay s |}.

Definition with_recordingDurationMillis (d : Z) (s : State) : State :=
  {| isRecording := isRecording s; isPreparing := isPreparing s;
     recordingUri := recordingUri s;
     recordingDurationMillis := d;
     recordingRef := recordingRef s; playbackRef := playbackRef s;
     isPlaying := isPlaying s; loadingPlay := loadingPlay s |}.

Definition with_recordingRef (r : option nat) (s : State) : State :=
  {| isRecording := isRecording s; isPreparing := isPreparing s;
     recordingUri := recordingUri s;
     recordingDurationMillis := recordingDurationMillis s;
     recordingRef := r; playbackRef := playbackRef s;
     isPlaying := isPlaying s; loadingPlay := loadingPlay s |}.

Definition with_playbackRef (r : option nat) (s : State) : State :=
  {| isRecording := isRecording s; isPreparing := isPreparing s;
     recordingUri := recordingUri s;
     recordingDurationMillis := recordingDurationMillis s;
     recordingRef := recordingRef s; playbackRef := r;
     isPlaying := isPlaying s; loadingPlay := loadingPlay s |}.

Definition with_isPlaying (b : bool) (s : State) : State :=
  {| isRecording := isRecording s; isPreparing := isPreparing s;
     recordingUri := recordingUri s;
     recordingDurationMillis := recordingDurationMillis s;
     recordingRef := recordingRef s; playbackRef := playbackRef s;
     isPlaying := b; loadingPlay := loadingPlay s |}.

Definition with_loadingPlay (b : bool) (s : State) : State :=
  {| isRecording := isRecording s; isPreparing := isPreparing s;
     recordingUri := recordingUri s;
     recordingDurationMillis := recordingDurationMillis s;
     recordingRef := recordingRef s; playbackRef := playbackRef s;
     isPlaying := isPlaying s; loadingPlay := b |}.

(** Everything the component does to the outside world, in program order.
    An asynchronous platform call is logged together with whether its
    promise resolved; [SoundCreateAsync] carries the sound it resolved with. *)
Inductive Effect : Type :=
| RequestPermissionsAsync (resolved : bool)
| SetAudioModeAsync (resolved : bool)
| NewRecording (rec : nat)
| SetOnRecordingStatusUpdate (rec : nat)
| PrepareToRecordAsync (rec : nat) (resolved : bool)
| StartAsync (rec : nat) (resolved : bool)
| StopAndUnloadAsync (rec : nat) (resolved : bool)
| GetURI (rec : nat)
| SoundUnloadAsync (sound : nat) (resolved : bool)
| SoundCreateAsync (uri : string) (result : option nat)
| SetOnPlaybackStatusUpdate (sound : nat)
| ConsoleError (message : string)
| Alert (title message : string).

(** The component together with the log of its effects and every value
    written to its cells (one entry per [setX] call or ref assignment), both
    in program order. *)
Record Sys : Type := mkSys {
  st : State;
  log : list Effect;
  history : list State
}.

Definition boot : Sys := {| st := initial; log := []; history := [] |}.

(** A handler body: it transforms the component and completes. *)
Definition M (A : Type) : Type := Sys -> completion A * Sys.

#[global] Instance M_ret : MRet M := fun A a σ => (Normal a, σ).

#[global] Instance M_bind : MBind M := fun A B f m σ =>
  match m σ with
  | (Normal a, σ1) => f a σ1
  | (Return, σ1) => (Return, σ1)
  | (Throw e, σ1) => (Throw e, σ1)
  end.

Definition modify (f : State -> State) : M unit :=
  fun σ =>
    (Normal tt,
     {| st := f (st σ); log := log σ;
        history := history σ ++ [f (st σ)] |}).

Definition gets {A} (f : State -> A) : M A :=
  fun σ => (Normal (f (st σ)), σ).

Definition emit (e : Effect) : M unit :=
  fun σ =>
    (Normal tt,
     {| st := st σ; log := log σ ++ [e]; history := history σ |}).

(** The [return] statement. *)
Definition js_return {A} : M A := fun σ => (Return, σ).

Definition resolved {A} (o : outcome A) : bool :=
  match o with Resolved _ => true | Rejected _ => false end.

(** [await p]: the call is made (and logged); a rejection is thrown at the
    [await]. *)
Definition await {A} (e : Effect) (o : outcome A) : M A :=
  fun σ =>
    let σ1 :=
      {| st := st σ; log := log σ ++ [e]; history := history σ |} in
    match o with
    | Resolved a => (Normal a, σ1)
    | Rejected err => (Throw err, σ1)
    end.

(** [p.catch (() => {})] without [await]: the call is made, a rejection is
    swallowed. *)
Definition fire_and_forget (e : Effect) : M unit := emit e.

(** [try { body } catch (err) { handler } finally { fin }]: the handler runs
    on a throw of the body, [fin] runs on every path, and the statement
    completes like the body (or the handler) unless [fin] itself completes
    abruptly. *)
Definition try_catch_finally (body : M unit) (handler : string -> M unit)
    (fin : M unit) : M unit :=
  fun σ =>
    let (c1, σ1) := body σ in
    let (c2, σ2) :=
      match c1 with
      | Throw err => handler err σ1
      | _ => (c1, σ1)
      end in
    let (c3, σ3) := fin σ2 in
    match c3 with
    | Normal _ => (c2, σ3)
    | _ => (c3, σ3)
    end.

(** Calling an [async function] and waiting until its promise settles: the
    component afterwards. *)
Definition settle (body : M unit) (σ : Sys) : Sys := snd (body σ).

(** Whether the promise of the call is rejected (the body threw). *)
Definition rejects (body : M unit) (σ : Sys) : bool :=
  match fst (body σ) with Throw _ => true | _ => false end.

Definition setIsRecording b := modify (with_isRecording b).
Definition setIsPreparing b := modify (with_isPreparing b).
Definition setRecordingUri u := modify (with_recordingUri u).
(** The updater form, [setRecordingDurationMillis (prev => ...)]. *)
Definition setRecordingDurationMillis (f : Z -> Z) :=
  modify
    (fun s => with_recordingDurationMillis (f (recordingDurationMillis s)) s).
Definition setIsPlaying b := modify (with_isPlaying b).
Definition setLoadingPlay b := modify (with_loadingPlay b).
Definition setRecordingRef r := modify (with_recordingRef r).
Definition setPlaybackRef r := modify (with_playbackRef r).

Definition console_error (message : string) : M unit :=
  emit (ConsoleError message).
Definition Alert_alert (title message : string) : M unit :=
  emit (Alert title message).

(** *** What the platform answers *)

(** The promises awaited by one call of [startRecording], and the object
    [new Audio.Recording()] yields. *)
Record StartOracle : Type := {
  permission : outcome string;
  setAudioMode : outcome unit;
  newRecording : nat;
  prepareToRecord : outcome unit;
  startAsync : outcome unit
}.

(** [stopAndUnloadAsync] and the later [getURI ()] of the recording. *)
Record StopOracle : Type := {
  stopAndUnload : outcome unit;
  getURI : option string
}.

(** [unloadAsync] of the previous sound and [Audio.Sound.createAsync]. *)
Record PlayOracle : Type := {
  unloadPrevious : outcome unit;
  createSound : outcome nat
}.

(** The status object handed to the recording callback. *)
Record RecordingStatus : Type := {
  status_isRecording : bool;
  status_durationMillis : option Z
}.

(** [AVPlaybackStatus]: the error variant has [isLoaded: false], the success
    variant has [isLoaded: true] and a [didJustFinish] flag. *)
Inductive AVPlaybackStatus : Type :=
| StatusError (error : option string)
| StatusSuccess (didJustFinish : bool).

Definition status_isLoaded (status : AVPlaybackStatus) : bool :=
  match status with StatusError _ => false | StatusSuccess _ => true end.

Definition status_didJustFinish (status : AVPlaybackStatus) : bool :=
  match status with StatusError _ => false | StatusSuccess d => d end.

(** *** The handlers *)

(** The callback registered by [startRecording] on the recording. *)
Definition onRecordingStatusUpdate (status : RecordingStatus) : M unit :=
  if status_isRecording status
  then setRecordingDurationMillis
         (fun _ => nullish (status_durationMillis status) 0)
  else mret tt.

Definition startRecording (o : StartOracle) : M unit :=
  setIsPreparing true ;;
  try_catch_finally
    (perm ← await (RequestPermissionsAsync (resolved (permission o)))
              (permission o);
     (if negb (String.eqb perm "granted")
      then Alert_alert "Permission required"
             "Microphone permission is required to record audio." ;;
           setIsPreparing false ;;
           js_return
      else mret tt) ;;
     await (SetAudioModeAsync (resolved (setAudioMode o))) (setAudioMode o) ;;
     let recording := newRecording o in
     emit (NewRecording recording) ;;
     setRecordingRef (Some recording) ;;
     emit (SetOnRecordingStatusUpdate recording) ;;
     await (PrepareToRecordAsync recording (resolved (prepareToRecord o)))
       (prepareToRecord o) ;;
     await (StartAsync recording (resolved (startAsync o))) (startAsync o) ;;
     setIsRecording true ;;
     setRecordingUri None)
    (fun err =>
       console_error "startRecording error" ;;
       Alert_alert "Recording failed" "Could not start recording.")
    (setIsPreparing false).

Definition stopRecording (o : StopOracle) : M unit :=
  try_catch_finally
    (recording ← gets recordingRef;
     match recording with
     | None => js_return
     | Some recording =>
         setIsPreparing true ;;
         await (StopAndUnloadAsync recording (resolved (stopAndUnload o)))
           (stopAndUnload o) ;;
         emit (GetURI recording) ;;
         let uri := getURI o in
         setRecordingUri uri ;;
         setIsRecording false ;;
         setRecordingDurationMillis (fun prev => prev) ;;
         setRecordingRef None
     end)
    (fun err =>
       console_error "stopRecording error" ;;
       Alert_alert "Stop failed" "Could not stop recording cleanly.")
    (setIsPreparing false).

(** The callback [playRecording] registers on the sound it created; [sound]
    is the variable the closure captures, [unload] what its [unloadAsync]
    will answer. *)
Definition onPlaybackStatusUpdate (sound : nat) (unload : outcome unit)
    (status : option AVPlaybackStatus) : M unit :=
  match status with
  | None => js_return
  | Some status =>
      if negb (status_isLoaded status) then js_return
      else if status_didJustFinish status then
        setIsPlaying false ;;
        fire_and_forget (SoundUnloadAsync sound (resolved unload)) ;;
        setPlaybackRef None
      else mret tt
  end.

(** [recordingUri] is the value of the render whose closure is called; the
    handlers run one at a time here, so it is the current cell. *)
Definition playRecording (o : PlayOracle) : M unit :=
  recordingUri ← gets recordingUri;
  (if negb (truthy recordingUri) then js_return else mret tt) ;;
  setLoadingPlay true ;;
  try_catch_finally
    (previous ← gets playbackRef;
     match previous with
     | Some previous =>
         await (SoundUnloadAsync previous (resolved (unloadPrevious o)))
           (unloadPrevious o) ;;
         setPlaybackRef None
     | None => mret tt
     end ;;
     sound ← await (SoundCreateAsync (nullish recordingUri "")
                      match createSound o with
                      | Resolved sound => Some sound
                      | Rejected _ => None
                      end)
               (createSound o);
     setPlaybackRef (Some sound) ;;
     setIsPlaying true ;;
     emit (SetOnPlaybackStatusUpdate sound))
    (fun err =>
       console_error "playRecording error" ;;
       Alert_alert "Playback failed" "Could not play recording." ;;
       setIsPlaying false)
    (setLoadingPlay false).

(** *** The two buttons *)

(** [onPress={isRecording ? stopRecording : startRecording}]. *)
Definition recordButton_onPress (o1 : StartOracle) (o2 : StopOracle)
  : M unit :=
  recording ← gets isRecording;
  if recording : bool then stopRecording o2 else startRecording o1.

(** [disabled={!recordingUri || isPlaying || loadingPlay}]. *)
Definition playButton_disabled (s : State) : bool :=
  negb (truthy (recordingUri s)) || isPlaying s || loadingPlay s.

(** A press on a disabled [Pressable] does not call [onPress]. *)
Definition playButton_onPress (o : PlayOracle) : M unit :=
  disabled ← gets playButton_disabled;
  if disabled : bool then mret tt else playRecording o.

(** *** Runs of the component *)

(** What can happen to a mounted component: a handler is called (directly
    or through its button) or the platform delivers a status. *)
Inductive Event : Type :=
| CallStart (o : StartOracle)
| CallStop (o : StopOracle)
| CallPlay (o : PlayOracle)
| PressRecord (o1 : StartOracle) (o2 : StopOracle)
| PressPlay (o : PlayOracle)
| RecordingStatusUpdate (status : RecordingStatus)
| PlaybackStatusUpdate (sound : nat) (unload : outcome unit)
    (status : option AVPlaybackStatus).

Definition handler (e : Event) : M unit :=
  match e with
  | CallStart o => startRecording o
  | CallStop o => stopRecording o
  | CallPlay o => playRecording o
  | PressRecord o1 o2 => recordButton_onPress o1 o2
  | PressPlay o => playButton_onPress o
  | RecordingStatusUpdate status => onRecordingStatusUpdate status
  | PlaybackStatusUpdate sound unload status =>
      onPlaybackStatusUpdate sound unload status
  end.

(** Events are handled one at a time, each handler running until its
    promise settles. *)
Definition run (events : list Event) (σ : Sys) : Sys :=
  fold_left (fun σ e => settle (handler e) σ) events σ.

(** *** Reading the log *)

Definition is_alert (e : Effect) : bool :=
  match e with Alert _ _ => true | _ => false end.

(** The alerts shown, in order. *)
Definition alerts (l : list Effect) : list Effect := List.filter is_alert l.

(** The sounds that are loaded after an effect, given those loaded before:
    a resolved [createAsync] loads its sound, a resolved [unloadAsync]
    unloads it (a rejected one is taken to leave it loaded). *)
Definition live_after (e : Effect) (L : gset nat) : gset nat :=
  match e with
  | SoundCreateAsync _ (Some sound) => L ∪ {[ sound ]}
  | SoundUnloadAsync sound true => L ∖ {[ sound ]}
  | _ => L
  end.

Definition live_sounds (l : list Effect) (L : gset nat) : gset nat :=
  fold_left (fun L e => live_after e L) l L.

(** The sound the component still refers to. *)
Definition owned_sound (s : State) : gset nat :=
  match playbackRef s with Some sound => {[ sound ]} | None => ∅ end.

(** *** The phases of the lifecycle, read off the cells *)

(** Neither spinner is showing. *)
Definition settled (s : State) : bool :=
  negb (isPreparing s) && negb (loadingPlay s).

(** Idle with a finished recording available. *)
Definition idle_with_file (s : State) : bool :=
  truthy (recordingUri s) && negb (isRecording s) && negb (isPreparing s)
  && negb (isPlaying s) && negb (loadingPlay s).

(** Playing the finished recording. *)
Definition playing (s : State) : bool :=
  truthy (recordingUri s) && negb (isRecording s) && negb (isPreparing s)
  && isPlaying s && negb (loadingPlay s).

End Explore.

(** ** The permission-gated toggle: [App] *)

Module App.

(** The two [useState] cells. *)
Record State : Type := mkState {
  recording : bool;
  granted : bool
}.

Definition initial : State := {| recording := false; granted := false |}.

(** The mount effect: [setGranted (status === 'granted')] once the
    permission request resolves; a rejection leaves the cell as it is. *)
Definition onMount (request : outcome string) (s : State) : State :=
  match request with
  | Resolved status =>
      {| recording := recording s; granted := String.eqb status "granted" |}
  | Rejected _ => s
  end.

(** [toggleRecording]: the component afterwards and the messages passed to
    [alert]. *)
Definition toggleRecording (s : State) : State * list string :=
  if negb (granted s)
  then (s, ["Microphone permission required"])
  else ({| recording := negb (recording s); granted := granted s |}, []).

End App.

(** ** The rest of [Explore]: unmount cleanup and what is rendered *)

Module ExploreRest.

Import Explore.

(** What the two release calls made on unmount will answer. *)
Record CleanupOracle : Type := {
  cleanupStopAndUnload : outcome unit;
  cleanupUnload : outcome unit
}.

(** The function returned by the mount effect ("cleanup on unmount").
    Neither release call is awaited: [stopAndUnloadAsync ()] sits in a
    [try]/[catch] that can only see a synchronous throw, and the sound's
    [unloadAsync ()] has its rejection swallowed by [.catch (() => {})]. *)
Definition cleanup (o : CleanupOracle) : M unit :=
  recording ← gets recordingRef;
  match recording with
  | Some recording =>
      try_catch_finally
        (fire_and_forget
           (StopAndUnloadAsync recording (resolved (cleanupStopAndUnload o))))
        (fun _ => mret tt)
        (mret tt) ;;
      setRecordingRef None
  | None => mret tt
  end ;;
  playback ← gets playbackRef;
  match playback with
  | Some sound =>
      fire_and_forget (SoundUnloadAsync sound (resolved (cleanupUnload o))) ;;
      setPlaybackRef None
  | None => mret tt
  end.

(** The status line under the microphone. *)
Definition statusText (s : State) : string :=
  if isPreparing s then "Working..."
  else if isRecording s then
    String.append "Recording · " (formatMillis (recordingDurationMillis s))
  else if truthy (recordingUri s) then
    String.append "Recorded · " (formatMillis (recordingDurationMillis s))
  else "Ready to record".

(** What a button shows: the spinner or a label. *)
Inductive ButtonContent : Type :=
| ActivityIndicator
| Text (label : string).

Definition recordButton_content (s : State) : ButtonContent :=
  if isPreparing s then ActivityIndicator
  else Text (if isRecording s then "Stop " else "Record ").

Definition playButton_content (s : State) : ButtonContent :=
  if loadingPlay s then ActivityIndicator
  else Text (if isPlaying s then "Playing  " else "Play ").

(** The "File" box: [recordingUri ?? "No file yet"]. *)
Definition metaValue (s : State) : string :=
  nullish (recordingUri s) "No file yet".

(** *** Reading the log, continued *)

(** Calls that release a recording. *)
Definition is_stopAndUnload (e : Effect) : bool :=
  match e with StopAndUnloadAsync _ _ => true | _ => false end.

Definition stopAndUnload_calls (l : list Effect) : list Effect :=
  List.filter is_stopAndUnload l.

(** A platform that reports the end of playback only for the sound the
    component holds, and whose unload of that sound then resolves; every other
    event is unrestricted. *)
Definition disciplined (σ : Sys) (e : Event) : bool :=
  match e with
  | PlaybackStatusUpdate sound unload (Some (StatusSuccess true)) =>
      match playbackRef (st σ) with
      | Some held => Nat.eqb held sound && resolved unload
      | None => false
      end
  | _ => true
  end.

Fixpoint disciplined_run (events : list Event) (σ : Sys) : bool :=
  match events with
  | [] => true
  | e :: events =>
      disciplined σ e && disciplined_run events (settle (handler e) σ)
  end.

(** Every promise of a [startRecording] resolves and the permission is
    granted. *)
Definition start_succeeds (o : StartOracle) : bool :=
  match permission o with
  | Resolved status => String.eqb status "granted"
  | Rejected _ => false
  end
  && resolved (setAudioMode o) && resolved (prepareToRecord o)
  && resolved (startAsync o).

End ExploreRest.

(** ** Repeated presses in [App] *)

Module AppRuns.

Import App.

(** [n] presses on the button, with the alerts they raise. *)
Fixpoint presses (n : nat) (s : State) : State * list string :=
  match n with
  | O => (s, [])
  | S k =>
      let (s1, a1) := toggleRecording s in
      let (s2, a2) := presses k s1 in
      (s2, a1 ++ a2)
  end.

(** The text above the button and the title of the button. *)
Definition statusLabel (s : State) : string :=
  if recording s then "Recording active" else "Recording stopped".

Definition buttonTitle (s : State) : string :=
  if recording s then "Stop Recording" else "Start Recording".

End AppRuns.

(** ** Concrete platforms and components used in the examples *)

Module Samples.

Import Explore.

(** Everything resolves; the recording object is number 7. *)
Definition start_ok : StartOracle :=
  {| permission := Resolved "granted"; setAudioMode := Resolved tt;
     newRecording := 7%nat; prepareToRecord := Resolved tt;
     startAsync := Resolved tt |}.


(** [prepareToRecordAsync] rejects. *)
Definition start_prepare_fails : StartOracle :=
  {| permission := Resolved "granted"; setAudioMode := Resolved tt;
     newRecording := 7%nat; prepareToRecord := Rejected "prepare failed";
     startAsync := Resolved tt |}.

Definition stop_ok : StopOracle :=
  {| stopAndUnload := Resolved tt; getURI := Some "file:///memo.m4a" |}.

(** [stopAndUnloadAsync] rejects. *)
Definition stop_fails : StopOracle :=
  {| stopAndUnload := Rejected "finalize failed";
     getURI := Some "file:///memo.m4a" |}.

(** [stopAndUnloadAsync] resolves and [getURI ()] answers [null]. *)
Definition stop_without_uri : StopOracle :=
  {| stopAndUnload := Resolved tt; getURI := None |}.

(** [createAsync] resolves with sound number 4. *)
Definition play_ok : PlayOracle :=
  {| unloadPrevious := Resolved tt; createSound := Resolved 4%nat |}.

(** The component while it records: [startRecording] has resolved. *)
Definition recording_sys : Sys := run [CallStart start_ok] boot.

(** The component with a finished recording. *)
Definition recorded_sys : Sys :=
  run [CallStart start_ok; CallStop stop_ok] boot.

(** The component while sound number 3 plays the finished recording. *)
Definition playing_sys : Sys :=
  run [CallStart start_ok; CallStop stop_ok;
       CallPlay {| unloadPrevious := Resolved tt; createSound := Resolved 3%nat |}]
    boot.


End Samples.

(** ** Further concrete inputs *)

Module MoreSamples.

Import Explore.
Import ExploreRest.

(** Both release calls of the unmount cleanup resolve. *)
Definition cleanup_ok : CleanupOracle :=
  {| cleanupStopAndUnload := Resolved tt; cleanupUnload := Resolved tt |}.

(** [createAsync] rejects. *)
Definition play_create_fails : PlayOracle :=
  {| unloadPrevious := Resolved tt; createSound := Rejected "no codec" |}.

(** A tick of the recording callback at 61 seconds. *)
Definition tick_61s : RecordingStatus :=
  {| status_isRecording := true; status_durationMillis := Some 61000 |}.

(** A second start, whose recording object is number 8. *)
Definition start_again : StartOracle :=
  {| permission := Resolved "granted"; setAudioMode := Resolved tt;
     newRecording := 8%nat; prepareToRecord := Resolved tt;
     startAsync := Resolved tt |}.

(** The status delivered once a recording has stopped. *)
Definition tick_stopped : RecordingStatus :=
  {| status_isRecording := false; status_durationMillis := Some 99000 |}.

End MoreSamples.

(** * Properties *)

(** ** Duration formatting *)

Section FormatMillis.

(** The seconds field, tabulated over its whole range. *)
Lemma padStart_seconds_table :
  forallb
    (fun n => String.eqb (padStart 2 "0" (toString (Z.of_nat n)))
                (two_digits (Z.of_nat n)))
    (List.seq 0 60) = true.
Proof. vm_compute. reflexivity. Qed.

Lemma padStart_seconds (s : Z) :
  0 <= s < 60 -> padStart 2 "0" (toString s) = two_digits s.
Proof.
  intros Hs.
  pose proof padStart_seconds_table as T.
  rewrite forallb_forall in T.
  specialize (T (Z.to_nat s)).
  rewrite Z2Nat.id in T by lia.
  apply String.eqb_eq, T, in_seq. lia.
Qed.

Lemma two_digits_length (s : Z) : String.length (two_digits s) = 2%nat.
Proof. reflexivity. Qed.

Lemma formatMillis_nonneg (ms : Z) :
  0 <= ms ->
  formatMillis ms =
    String.append (toString (ms / 60000))
      (String.append ":" (two_digits ((ms / 1000) mod 60))).
Proof.
  intros Hms. unfold formatMillis. cbv zeta.
  assert (H0 : 0 <= ms / 1000) by (apply Z.div_pos; lia).
  rewrite Z.rem_mod_nonneg by lia.
  rewrite padStart_seconds by (apply Z.mod_pos_bound; lia).
  rewrite Z.div_div by lia.
  reflexivity.
Qed.

(** C6. [formatMillis] writes a duration as minutes, a colon and the
    seconds on exactly two digits (zero-padded): 0 gives "0:00", 61000
    gives "1:01", 600000 gives "10:00", and every non-negative number of
    milliseconds gives the whole minutes [ms / 60000] followed by the two
    digits of the remaining whole seconds. *)
Theorem formatMillis_minutes_seconds :
  formatMillis 0 = "0:00" /\
  formatMillis 61000 = "1:01" /\
  formatMillis 600000 = "10:00" /\
  forall ms : Z, 0 <= ms ->
    formatMillis ms =
      String.append (toString (ms / 60000))
        (String.append ":" (two_digits ((ms / 1000) mod 60))) /\
    String.length (two_digits ((ms / 1000) mod 60)) = 2%nat /\
    0 <= (ms / 1000) mod 60 < 60.
Proof.
  repeat split; try reflexivity.
  - now apply formatMillis_nonneg.
  - apply Z.mod_pos_bound; lia.
  - apply Z.mod_pos_bound; lia.
Qed.

Lemma formatMillis_minutes_seconds_witness :
  0 <= 125999 /\ formatMillis 125999 = "2:05".
Proof.
  split; [lia |].
  destruct formatMillis_minutes_seconds as (_ & _ & _ & H).
  destruct (H 125999 ltac:(lia)) as (E & _ & _).
  rewrite E. reflexivity.
Defined.

End FormatMillis.

(** ** The recorder/player lifecycle *)

Import Explore.

(** Unfolds a handler down to the state it computes. *)
Ltac unfold_handler :=
  unfold settle, rejects, startRecording, stopRecording, playRecording,
    onPlaybackStatusUpdate, onRecordingStatusUpdate, recordButton_onPress,
    playButton_onPress, playButton_disabled, try_catch_finally, await,
    fire_and_forget, console_error, Alert_alert, emit, js_return, gets,
    setIsRecording, setIsPreparing, setRecordingUri,
    setRecordingDurationMillis, setIsPlaying, setLoadingPlay,
    setRecordingRef, setPlaybackRef, modify, mbind, mret, M_bind, M_ret.

(** Splits a component into its cells. *)
Ltac open_sys σ :=
  let s := fresh "s" in
  destruct σ as [s ? ?]; destruct s; cbn in *.

Section StopRecording.

Variable o : StopOracle.
Variable σ : Sys.


(** [stopAndUnloadAsync] resolves. *)
Lemma stopRecording_resolved (h : nat) :
  recordingRef (st σ) = Some h ->
  stopAndUnload o = Resolved tt ->
  st (settle (stopRecording o) σ) =
    with_isPreparing false
      (with_recordingRef None
         (with_isRecording false (with_recordingUri (getURI o) (st σ))))
  /\ log (settle (stopRecording o) σ) =
       log σ ++ [StopAndUnloadAsync h true; GetURI h]
  /\ rejects (stopRecording o) σ = false.
Proof.
  intros Href Ho. unfold_handler. rewrite Href, Ho. cbn.
  rewrite <- !app_assoc. open_sys σ. repeat split; reflexivity.
Qed.

(** [stopAndUnloadAsync] rejects: the [catch] block logs and alerts, nothing
    else is undone. *)
Lemma stopRecording_rejected (h : nat) (err : string) :
  recordingRef (st σ) = Some h ->
  stopAndUnload o = Rejected err ->
  st (settle (stopRecording o) σ) = with_isPreparing false (st σ)
  /\ log (settle (stopRecording o) σ) =
       log σ ++ [StopAndUnloadAsync h false;
                 ConsoleError "stopRecording error";
                 Alert "Stop failed" "Could not stop recording cleanly."]
  /\ rejects (stopRecording o) σ = false.
Proof.
  intros Href Ho. unfold_handler. rewrite Href, Ho. cbn.
  rewrite <- !app_assoc. open_sys σ. repeat split; reflexivity.
Qed.

End StopRecording.

Lemma alerts_app (l1 l2 : list Effect) :
  alerts (l1 ++ l2) = alerts l1 ++ alerts l2.
Proof. apply List.filter_app. Qed.

(** C1 (as amended). A call of [stopRecording] that finds a recording in the
    ref always settles without rejecting and with [isPreparing] false.  When
    [stopAndUnloadAsync] resolves, [isRecording] is false, the ref is empty,
    no alert is shown and [recordingUri] is exactly what [getURI ()] answers,
    so it is a non-empty string whenever the recording reports one.  When
    [stopAndUnloadAsync] rejects, the "Stop failed" alert is the one alert
    shown and [recordingUri] is left as it was (no file is gained), while
    [isRecording], the duration and the recording in the ref keep the values
    they had before the call. *)
Theorem stopRecording_settles (o : StopOracle) (σ : Sys) (h : nat) :
  recordingRef (st σ) = Some h ->
  let σ' := settle (stopRecording o) σ in
  rejects (stopRecording o) σ = false /\
  isPreparing (st σ') = false /\
  match stopAndUnload o with
  | Resolved _ =>
      isRecording (st σ') = false /\
      recordingUri (st σ') = getURI o /\
      (truthy (getURI o) = true -> truthy (recordingUri (st σ')) = true) /\
      recordingRef (st σ') = None /\
      recordingDurationMillis (st σ') = recordingDurationMillis (st σ) /\
      alerts (log σ') = alerts (log σ)
  | Rejected _ =>
      alerts (log σ') =
        alerts (log σ) ++
          [Alert "Stop failed" "Could not stop recording cleanly."] /\
      recordingUri (st σ') = recordingUri (st σ) /\
      isRecording (st σ') = isRecording (st σ) /\
      recordingRef (st σ') = Some h /\
      recordingDurationMillis (st σ') = recordingDurationMillis (st σ)
  end.
Proof.
  intros Href σ'. subst σ'.
  destruct (stopAndUnload o) as [[]|err] eqn:Ho.
  - destruct (stopRecording_resolved o σ h Href Ho) as (Hst & Hlog & Hrej).
    rewrite Hst, Hlog, alerts_app. cbn. rewrite app_nil_r.
    repeat split; auto.
  - destruct (stopRecording_rejected o σ h err Href Ho) as (Hst & Hlog & Hrej).
    rewrite Hst, Hlog, alerts_app. cbn.
    repeat split; auto.
Qed.

Lemma stopRecording_settles_witness :
  recordingRef (st Samples.recording_sys) = Some 7%nat /\
  truthy (getURI Samples.stop_ok) = true /\
  recordingUri (st (settle (stopRecording Samples.stop_ok)
                      Samples.recording_sys)) = Some "file:///memo.m4a" /\
  truthy (recordingUri (st (settle (stopRecording Samples.stop_ok)
                              Samples.recording_sys))) = true.
Proof.
  split; [reflexivity |]. split; [reflexivity |].
  pose proof (stopRecording_settles Samples.stop_ok Samples.recording_sys
                7%nat eq_refl) as H.
  cbv zeta in H. destruct H as (_ & _ & H).
  change (stopAndUnload Samples.stop_ok) with (Resolved tt) in H.
  destruct H as (_ & Huri & Htruthy & _).
  split; [exact Huri | apply Htruthy; reflexivity].
Defined.

(** The claim C1 as first stated fails twice.  After a rejected
    [stopAndUnloadAsync] the component is still recording, with the recording
    still in the ref; and after a resolved one [recordingUri] is [null] when
    [getURI ()] answers [null]. *)
Lemma stopRecording_failure_keeps_recording :
  stopAndUnload Samples.stop_fails = Rejected "finalize failed" /\
  isRecording (st (settle (stopRecording Samples.stop_fails)
                     Samples.recording_sys)) = true /\
  recordingRef (st (settle (stopRecording Samples.stop_fails)
                      Samples.recording_sys)) = Some 7%nat /\
  stopAndUnload Samples.stop_without_uri = Resolved tt /\
  recordingUri (st (settle (stopRecording Samples.stop_without_uri)
                      Samples.recording_sys)) = None.
Proof. repeat split; reflexivity. Qed.




Section StartRecording.

Variable o : StartOracle.
Variable σ : Sys.


(** [setAudioModeAsync] rejects: no recording object has been created yet. *)
Lemma startRecording_audioMode_rejected (err : string) :
  permission o = Resolved "granted" ->
  setAudioMode o = Rejected err ->
  st (settle (startRecording o) σ) = with_isPreparing false (st σ)
  /\ log (settle (startRecording o) σ) =
       log σ ++ [RequestPermissionsAsync true; SetAudioModeAsync false;
                 ConsoleError "startRecording error";
                 Alert "Recording failed" "Could not start recording."]
  /\ rejects (startRecording o) σ = false.
Proof.
  intros Hperm Ha. unfold_handler. rewrite Hperm, Ha. cbn.
  rewrite <- !app_assoc. open_sys σ. repeat split; reflexivity.
Qed.

(** [prepareToRecordAsync] or [startAsync] rejects: the recording object is
    already in the ref and stays there. *)
Lemma startRecording_recording_rejected :
  permission o = Resolved "granted" ->
  setAudioMode o = Resolved tt ->
  resolved (prepareToRecord o) && resolved (startAsync o) = false ->
  st (settle (startRecording o) σ) =
    with_isPreparing false (with_recordingRef (Some (newRecording o)) (st σ))
  /\ alerts (log (settle (startRecording o) σ)) =
       alerts (log σ) ++ [Alert "Recording failed" "Could not start recording."]
  /\ rejects (startRecording o) σ = false.
Proof.
  intros Hperm Ha Hrej. unfold_handler. rewrite Hperm, Ha. cbn.
  destruct (prepareToRecord o) as [[]|e1]; [destruct (startAsync o) as [[]|e2] |];
    try discriminate Hrej; cbn;
    rewrite <- !app_assoc, alerts_app; cbn;
    open_sys σ; repeat split; reflexivity.
Qed.

(** Every promise resolves and the permission is granted. *)
Lemma startRecording_resolved :
  permission o = Resolved "granted" ->
  setAudioMode o = Resolved tt ->
  prepareToRecord o = Resolved tt ->
  startAsync o = Resolved tt ->
  st (settle (startRecording o) σ) =
    with_isPreparing false
      (with_recordingUri None
         (with_isRecording true
            (with_recordingRef (Some (newRecording o)) (st σ))))
  /\ alerts (log (settle (startRecording o) σ)) = alerts (log σ)
  /\ rejects (startRecording o) σ = false.
Proof.
  intros Hperm Ha Hp Hs. unfold_handler. rewrite Hperm, Ha, Hp, Hs. cbn.
  rewrite <- !app_assoc, alerts_app. cbn. rewrite app_nil_r.
  open_sys σ. repeat split; reflexivity.
Qed.

End StartRecording.

(** C2 (as amended). When the permission is granted and
    [setAudioModeAsync], [prepareToRecordAsync] or [startAsync] rejects,
    [startRecording] settles without rejecting, with [isPreparing] false and
    [isRecording] and [recordingUri] as before, and the "Recording failed"
    alert is the one alert shown.  No recording is released: when
    [setAudioModeAsync] rejected the ref is as before the call (no recording
    object was created), and when [prepareToRecordAsync] or [startAsync]
    rejected the ref holds the recording object created by this call. *)
Theorem startRecording_failure (o : StartOracle) (σ : Sys) :
  permission o = Resolved "granted" ->
  resolved (setAudioMode o) && (resolved (prepareToRecord o) && resolved (startAsync o))
    = false ->
  let σ' := settle (startRecording o) σ in
  rejects (startRecording o) σ = false /\
  isPreparing (st σ') = false /\
  isRecording (st σ') = isRecording (st σ) /\
  recordingUri (st σ') = recordingUri (st σ) /\
  alerts (log σ') =
    alerts (log σ) ++ [Alert "Recording failed" "Could not start recording."] /\
  recordingRef (st σ') =
    (if resolved (setAudioMode o) then Some (newRecording o)
     else recordingRef (st σ)).
Proof.
  intros Hperm Hfail σ'. subst σ'.
  destruct (setAudioMode o) as [[]|err] eqn:Ha; cbn in Hfail |- *.
  - destruct (startRecording_recording_rejected o σ Hperm Ha Hfail)
      as (Hst & Hal & Hrej).
    rewrite Hst, Hal. repeat split; auto.
  - destruct (startRecording_audioMode_rejected o σ err Hperm Ha)
      as (Hst & Hlog & Hrej).
    rewrite Hst, Hlog, alerts_app. repeat split; auto.
Qed.

Lemma startRecording_failure_witness :
  permission Samples.start_prepare_fails = Resolved "granted" /\
  alerts (log (settle (startRecording Samples.start_prepare_fails) boot)) =
    [Alert "Recording failed" "Could not start recording."].
Proof.
  split; [reflexivity |].
  pose proof (startRecording_failure Samples.start_prepare_fails boot
                eq_refl eq_refl) as H.
  cbv zeta in H. destruct H as (_ & _ & _ & _ & H & _). exact H.
Defined.

(** The claim C2 as first stated fails on the release: after a rejected
    [prepareToRecordAsync] the recording object of the call is still in the
    ref, and nothing was called on it after the rejected call. *)
Lemma startRecording_failure_keeps_handle :
  prepareToRecord Samples.start_prepare_fails = Rejected "prepare failed" /\
  recordingRef (st (settle (startRecording Samples.start_prepare_fails) boot))
    = Some 7%nat /\
  log (settle (startRecording Samples.start_prepare_fails) boot) =
    [RequestPermissionsAsync true; SetAudioModeAsync true; NewRecording 7;
     SetOnRecordingStatusUpdate 7; PrepareToRecordAsync 7 false;
     ConsoleError "startRecording error";
     Alert "Recording failed" "Could not start recording."].
Proof. repeat split; reflexivity. Qed.




Section PlayRecording.

Variable o : PlayOracle.
Variable σ : Sys.

(** The guard at the top of [playRecording], which stands before the [try]:
    with a falsy [recordingUri] nothing at all happens. *)
Lemma playRecording_without_file :
  truthy (recordingUri (st σ)) = false ->
  settle (playRecording o) σ = σ /\ rejects (playRecording o) σ = false.
Proof.
  intros Huri. unfold_handler. rewrite Huri. cbn. split; reflexivity.
Qed.

(** With a file, [loadingPlay] is false once the call has settled, and the
    call does not reject. *)
Lemma playRecording_with_file_settles :
  truthy (recordingUri (st σ)) = true ->
  loadingPlay (st (settle (playRecording o) σ)) = false
  /\ isPreparing (st (settle (playRecording o) σ)) = isPreparing (st σ)
  /\ rejects (playRecording o) σ = false.
Proof.
  intros Huri. unfold_handler. rewrite Huri. cbn.
  destruct (playbackRef (st σ)) as [p|];
    [destruct (unloadPrevious o) as [[]|e1] |];
    try destruct (createSound o) as [snd|e2]; cbn; repeat split; reflexivity.
Qed.

(** A disabled Play button swallows the press. *)
Lemma playButton_disabled_noop :
  playButton_disabled (st σ) = true ->
  settle (playButton_onPress o) σ = σ /\ rejects (playButton_onPress o) σ = false.
Proof.
  intros Hd. unfold playButton_onPress, settle, rejects, gets, mbind, M_bind.
  rewrite Hd. split; reflexivity.
Qed.

End PlayRecording.

(** C3 (as amended). While [isPlaying] or [loadingPlay] is true the Play
    button is disabled, so a press is a no-op: [playRecording] is not called,
    no cell is written, nothing is logged and no sound is created.
    [playRecording] itself has no such guard; it only tests [recordingUri]. *)
Theorem playButton_press_while_busy (o : PlayOracle) (σ : Sys) :
  isPlaying (st σ) = true \/ loadingPlay (st σ) = true ->
  settle (playButton_onPress o) σ = σ /\
  rejects (playButton_onPress o) σ = false.
Proof.
  intros Hbusy. apply playButton_disabled_noop.
  unfold playButton_disabled.
  destruct Hbusy as [H | H]; rewrite H;
    repeat (rewrite ?orb_true_r, ?orb_true_l); reflexivity.
Qed.

Lemma playButton_press_while_busy_witness :
  isPlaying (st Samples.playing_sys) = true /\
  settle (playButton_onPress Samples.play_ok) Samples.playing_sys =
    Samples.playing_sys.
Proof.
  split; [reflexivity |].
  apply (playButton_press_while_busy Samples.play_ok Samples.playing_sys).
  left. reflexivity.
Defined.

(** The claim C3 as first stated fails for the function: called while sound 3
    is playing, [playRecording] unloads it, creates sound 4 and puts it in the
    ref. *)
Lemma playRecording_while_playing_creates_sound :
  isPlaying (st Samples.playing_sys) = true /\
  playbackRef (st Samples.playing_sys) = Some 3%nat /\
  playbackRef (st (settle (playRecording Samples.play_ok) Samples.playing_sys))
    = Some 4%nat /\
  log (settle (playRecording Samples.play_ok) Samples.playing_sys) =
    log Samples.playing_sys ++
      [SoundUnloadAsync 3 true; SoundCreateAsync "file:///memo.m4a" (Some 4%nat);
       SetOnPlaybackStatusUpdate 4].
Proof. repeat split; reflexivity. Qed.

(** C10. A call of [playRecording] while [recordingUri] is [null] returns
    before anything happens: the component is exactly as before, no cell has
    been written (so [loadingPlay] was never set), nothing was logged (no
    sound unloaded or created), and the call does not reject. *)
Theorem playRecording_without_recording (o : PlayOracle) (σ : Sys) :
  recordingUri (st σ) = None ->
  let σ' := settle (playRecording o) σ in
  σ' = σ /\
  st σ' = st σ /\ history σ' = history σ /\ log σ' = log σ /\
  rejects (playRecording o) σ = false.
Proof.
  intros Huri σ'. subst σ'.
  destruct (playRecording_without_file o σ) as (Heq & Hrej).
  { rewrite Huri. reflexivity. }
  rewrite Heq. repeat split; auto.
Qed.

Lemma playRecording_without_recording_witness :
  recordingUri (st Samples.recording_sys) = None /\
  settle (playRecording Samples.play_ok) Samples.recording_sys =
    Samples.recording_sys.
Proof.
  split; [reflexivity |].
  pose proof (playRecording_without_recording Samples.play_ok
                Samples.recording_sys eq_refl) as H.
  cbv zeta in H. destruct H as (H & _). exact H.
Defined.

Section PlaybackStatus.

Variable sound : nat.
Variable unload : outcome unit.
Variable σ : Sys.

(** A missing status, a status that is not loaded and a loaded status that
    has not just finished are all ignored by the callback. *)
Lemma onPlaybackStatusUpdate_ignored (status : option AVPlaybackStatus) :
  status <> Some (StatusSuccess true) ->
  settle (onPlaybackStatusUpdate sound unload status) σ = σ.
Proof.
  intros Hs. destruct status as [[e | []] |]; try congruence;
    unfold_handler; cbn; destruct σ; reflexivity.
Qed.

Lemma onPlaybackStatusUpdate_finished :
  settle (onPlaybackStatusUpdate sound unload (Some (StatusSuccess true))) σ =
    {| st := with_playbackRef None (with_isPlaying false (st σ));
       log := log σ ++ [SoundUnloadAsync sound (resolved unload)];
       history := history σ ++
                    [with_isPlaying false (st σ);
                     with_playbackRef None (with_isPlaying false (st σ))] |}.
Proof.
  unfold_handler. cbn. rewrite <- !app_assoc. reflexivity.
Qed.

End PlaybackStatus.

(** C7. When the playback callback receives a loaded status with
    [didJustFinish], it clears [isPlaying], calls [unloadAsync] on its sound
    (which is no longer loaded once that call resolves) and empties the
    playback ref, all by itself; the file reference is untouched, so a
    component that was playing is idle with its file again. *)
Theorem playback_finished_returns_to_idle
    (sound : nat) (unload : outcome unit) (σ : Sys) :
  let σ' :=
    settle (onPlaybackStatusUpdate sound unload (Some (StatusSuccess true))) σ
  in
  st σ' = with_playbackRef None (with_isPlaying false (st σ)) /\
  isPlaying (st σ') = false /\
  playbackRef (st σ') = None /\
  recordingUri (st σ') = recordingUri (st σ) /\
  log σ' = log σ ++ [SoundUnloadAsync sound (resolved unload)] /\
  (forall L : gset nat,
      resolved unload = true ->
      sound ∉ live_sounds [SoundUnloadAsync sound (resolved unload)] L) /\
  (playing (st σ) = true -> idle_with_file (st σ') = true).
Proof.
  intros σ'. subst σ'. rewrite onPlaybackStatusUpdate_finished. cbn.
  repeat split; auto.
  - intros L Hres. rewrite Hres. cbn.
    rewrite elem_of_difference, elem_of_singleton. tauto.
  - unfold playing, idle_with_file. open_sys σ.
    destruct (truthy recordingUri0), isRecording0, isPreparing0, isPlaying0,
      loadingPlay0; cbn; congruence.
Qed.

Lemma playback_finished_returns_to_idle_witness :
  playing (st Samples.playing_sys) = true /\
  idle_with_file
    (st (settle (onPlaybackStatusUpdate 3 (Resolved tt)
                   (Some (StatusSuccess true))) Samples.playing_sys)) = true /\
  resolved (Resolved tt) = true /\
  3%nat ∉ live_sounds [SoundUnloadAsync 3 (resolved (Resolved tt))] {[ 3%nat ]}.
Proof.
  split; [reflexivity |].
  pose proof (playback_finished_returns_to_idle 3 (Resolved tt)
                Samples.playing_sys) as H.
  cbv zeta in H. destruct H as (_ & _ & _ & _ & _ & Hlive & H).
  split; [apply H; reflexivity |]. split; [reflexivity |].
  apply Hlive. reflexivity.
Defined.

Section LiveSounds.

Variable L : gset nat.

Lemma size_at_most_one (x : nat) : L ⊆ {[ x ]} -> (size L <= 1)%nat.
Proof.
  intros H. apply subseteq_size in H. rewrite size_singleton in H. exact H.
Qed.

Lemma size_empty_sub : L ⊆ ∅ -> (size L <= 1)%nat.
Proof.
  intros H. apply subseteq_size in H. rewrite size_empty in H. lia.
Qed.

(** Unloading the only sound that can be loaded leaves none. *)
Lemma unload_owned (p : nat) : L ⊆ {[ p ]} -> L ∖ {[ p ]} ⊆ ∅.
Proof.
  intros H x. rewrite elem_of_difference. intros [Hx Hn].
  exfalso. apply Hn, H, Hx.
Qed.

(** Creating a sound when none is loaded leaves exactly that one. *)
Lemma create_when_none (K : gset nat) (snd : nat) :
  K ⊆ ∅ -> K ∪ {[ snd ]} ⊆ {[ snd ]}.
Proof.
  intros H x. rewrite elem_of_union. intros [Hx | Hx]; [| exact Hx].
  apply H in Hx. exfalso. revert Hx. apply not_elem_of_empty.
Qed.

End LiveSounds.

Lemma app_inv_head_nil {A} (l r : list A) : l = l ++ r -> [] = r.
Proof. intros H. apply (app_inv_head l). rewrite app_nil_r. exact H. Qed.


(** Runs [playRecording] along every path of its body. *)
Ltac play_paths o σ :=
  unfold owned_sound; unfold_handler;
  destruct (truthy (recordingUri (st σ))); cbn;
  destruct (playbackRef (st σ)) as [?p|] eqn:?Href;
    [destruct (unloadPrevious o) as [[]|?e] | | |];
    try destruct (createSound o) as [?snd|?e]; cbn;
    rewrite <- ?app_assoc; cbn.




(** ** The spinners are transient *)

Section Transient.

Variable σ : Sys.

(** Whatever the platform answers, [startRecording] settles with the
    spinner off and never touches [loadingPlay]. *)
Lemma startRecording_clears_isPreparing (o : StartOracle) :
  isPreparing (st (settle (startRecording o) σ)) = false
  /\ loadingPlay (st (settle (startRecording o) σ)) = loadingPlay (st σ)
  /\ rejects (startRecording o) σ = false.
Proof.
  unfold_handler.
  destruct (permission o) as [status|e0]; cbn;
    [destruct (String.eqb status "granted"); cbn;
     [destruct (setAudioMode o) as [[]|e1]; cbn;
      [destruct (prepareToRecord o) as [[]|e2]; cbn;
       [destruct (startAsync o) as [[]|e3]; cbn | ] | ] | ] | ];
    repeat split; reflexivity.
Qed.

Lemma stopRecording_clears_isPreparing (o : StopOracle) :
  isPreparing (st (settle (stopRecording o) σ)) = false
  /\ loadingPlay (st (settle (stopRecording o) σ)) = loadingPlay (st σ)
  /\ rejects (stopRecording o) σ = false.
Proof.
  unfold_handler.
  destruct (recordingRef (st σ)) as [h|]; cbn;
    [destruct (stopAndUnload o) as [[]|e]; cbn |];
    repeat split; reflexivity.
Qed.

(** [playRecording] leaves [loadingPlay] false unless it returned at its
    first line, in which case the cell is as it was. *)
Lemma playRecording_clears_loadingPlay (o : PlayOracle) :
  loadingPlay (st (settle (playRecording o) σ)) =
    (if truthy (recordingUri (st σ)) then false else loadingPlay (st σ))
  /\ isPreparing (st (settle (playRecording o) σ)) = isPreparing (st σ)
  /\ rejects (playRecording o) σ = false.
Proof.
  destruct (truthy (recordingUri (st σ))) eqn:Huri.
  - destruct (playRecording_with_file_settles o σ Huri) as (H1 & H2 & H3).
    auto.
  - destruct (playRecording_without_file o σ Huri) as (H1 & H2).
    rewrite H1. auto.
Qed.

(** The two status callbacks never write a spinner. *)
Lemma callbacks_keep_spinners :
  (forall status,
      isPreparing (st (settle (onRecordingStatusUpdate status) σ))
        = isPreparing (st σ)
      /\ loadingPlay (st (settle (onRecordingStatusUpdate status) σ))
        = loadingPlay (st σ))
  /\ (forall sound unload status,
      isPreparing (st (settle (onPlaybackStatusUpdate sound unload status) σ))
        = isPreparing (st σ)
      /\ loadingPlay (st (settle (onPlaybackStatusUpdate sound unload status) σ))
        = loadingPlay (st σ)).
Proof.
  split.
  - intros [[] d]; unfold_handler; cbn; split; reflexivity.
  - intros sound unload [[e | []] |]; unfold_handler; cbn; split; reflexivity.
Qed.

(** One event handled from a settled component leaves it settled. *)
Lemma handler_keeps_settled (e : Event) :
  settled (st σ) = true -> settled (st (settle (handler e) σ)) = true.
Proof.
  unfold settled. intros H.
  apply andb_prop in H. destruct H as [Hp Hl].
  apply negb_true_iff in Hp, Hl.
  assert (Hflags : isPreparing (st (settle (handler e) σ)) = false
                 /\ loadingPlay (st (settle (handler e) σ)) = false).
  { destruct e as [o | o | o | o1 o2 | o | status | sound unload status]; cbn.
    - destruct (startRecording_clears_isPreparing o) as (H1 & H2 & _).
      rewrite H1, H2. auto.
    - destruct (stopRecording_clears_isPreparing o) as (H1 & H2 & _).
      rewrite H1, H2. auto.
    - destruct (playRecording_clears_loadingPlay o) as (H1 & H2 & _).
      rewrite H1, H2. destruct (truthy _); auto.
    - unfold recordButton_onPress, settle, gets, mbind, M_bind.
      destruct (isRecording (st σ)).
      + destruct (stopRecording_clears_isPreparing o2) as (H1 & H2 & _).
        unfold settle in H1, H2. rewrite H1, H2. auto.
      + destruct (startRecording_clears_isPreparing o1) as (H1 & H2 & _).
        unfold settle in H1, H2. rewrite H1, H2. auto.
    - unfold playButton_onPress, settle, gets, mbind, M_bind.
      destruct (playButton_disabled (st σ)); cbn; [auto |].
      destruct (playRecording_clears_loadingPlay o) as (H1 & H2 & _).
      unfold settle in H1, H2. rewrite H1, H2. destruct (truthy _); auto.
    - destruct callbacks_keep_spinners as (Hrec & _).
      destruct (Hrec status) as (H1 & H2). rewrite H1, H2. auto.
    - destruct callbacks_keep_spinners as (_ & Hplay).
      destruct (Hplay sound unload status) as (H1 & H2). rewrite H1, H2. auto. }
  destruct Hflags as (G1 & G2). rewrite G1, G2. reflexivity.
Qed.

End Transient.

Lemma run_keeps_settled (events : list Event) (σ : Sys) :
  settled (st σ) = true -> settled (st (run events σ)) = true.
Proof.
  revert σ. induction events as [| e events IH]; intros σ H; cbn.
  - exact H.
  - apply IH, handler_keeps_settled, H.
Qed.

(** C4. After any sequence of handler calls, button presses and status
    callbacks on a freshly mounted component, whatever the platform answered
    to each of them, both spinners are off; and from there every call of
    [startRecording], [stopRecording] or [playRecording] settles, without
    rejecting, with [isPreparing] false after the first two and [loadingPlay]
    false after the third. *)
Theorem settled_after_every_operation (events : list Event) :
  let σ := run events boot in
  isPreparing (st σ) = false /\
  loadingPlay (st σ) = false /\
  (forall o : StartOracle,
      isPreparing (st (settle (startRecording o) σ)) = false /\
      rejects (startRecording o) σ = false) /\
  (forall o : StopOracle,
      isPreparing (st (settle (stopRecording o) σ)) = false /\
      rejects (stopRecording o) σ = false) /\
  (forall o : PlayOracle,
      loadingPlay (st (settle (playRecording o) σ)) = false /\
      rejects (playRecording o) σ = false).
Proof.
  intros σ.
  assert (H : settled (st σ) = true) by (apply run_keeps_settled; reflexivity).
  unfold settled in H. apply andb_prop in H. destruct H as [Hp Hl].
  apply negb_true_iff in Hp, Hl.
  split; [exact Hp |]. split; [exact Hl |]. repeat split.
  - apply startRecording_clears_isPreparing.
  - apply startRecording_clears_isPreparing.
  - apply stopRecording_clears_isPreparing.
  - apply stopRecording_clears_isPreparing.
  - destruct (playRecording_clears_loadingPlay σ o) as (H1 & _).
    rewrite H1, Hl. destruct (truthy _); reflexivity.
  - apply playRecording_clears_loadingPlay.
Qed.

(** ** More on duration formatting *)

Section FormatMillisMore.

(** The decimal writing of a number determines the number. *)
Lemma toString_inj (a b : Z) : toString a = toString b -> a = b.
Proof.
  unfold toString. intros H.
  assert (Hnn : forall z, Z.to_int z <> Decimal.Pos Decimal.Nil
                          /\ Z.to_int z <> Decimal.Neg Decimal.Nil).
  { intros [|p|p]; cbn; split; try discriminate;
      intros [= Hp]; revert Hp; apply DecimalPos.Unsigned.to_uint_nonnil. }
  assert (E : Some (Z.to_int a) = Some (Z.to_int b)).
  { rewrite <- (NilZero.isi (Z.to_int a)), <- (NilZero.isi (Z.to_int b));
      try apply Hnn. now rewrite H. }
  injection E as E.
  rewrite <- (DecimalZ.of_to a), <- (DecimalZ.of_to b). now rewrite E.
Qed.

Lemma length_append (a x : string) :
  String.length (String.append a x) = (String.length a + String.length x)%nat.
Proof. induction a as [|c a IH]; simpl; [reflexivity | now f_equal]. Qed.

(** Two strings with equally long tails are equal only piecewise. *)
Lemma append_inj_tail (a b x y : string) :
  String.length x = String.length y ->
  String.append a x = String.append b y -> a = b /\ x = y.
Proof.
  intros Hlen. revert b.
  induction a as [|c a IH]; intros [|d b] H;
    change (String.append EmptyString ?z) with z in H;
    change (String.append (String ?k ?u) ?z)
      with (String k (String.append u z)) in H.
  - auto.
  - exfalso. subst x. simpl in Hlen. rewrite length_append in Hlen. lia.
  - exfalso. subst y. simpl in Hlen. rewrite length_append in Hlen. lia.
  - injection H as -> H. destruct (IH b H) as (-> & ->). auto.
Qed.

Lemma two_digits_inj_table :
  forallb
    (fun n => forallb
       (fun m => implb (String.eqb (two_digits (Z.of_nat n))
                          (two_digits (Z.of_nat m)))
                   (Nat.eqb n m))
       (List.seq 0 60))
    (List.seq 0 60) = true.
Proof. vm_compute. reflexivity. Qed.

Lemma two_digits_inj (s t : Z) :
  0 <= s < 60 -> 0 <= t < 60 -> two_digits s = two_digits t -> s = t.
Proof.
  intros Hs Ht H.
  pose proof two_digits_inj_table as T.
  rewrite forallb_forall in T.
  specialize (T (Z.to_nat s)). rewrite forallb_forall in T.
  specialize (T ltac:(apply in_seq; lia) (Z.to_nat t) ltac:(apply in_seq; lia)).
  rewrite !Z2Nat.id in T by lia.
  apply String.eqb_eq in H. rewrite H in T. cbn in T.
  apply Nat.eqb_eq in T. lia.
Qed.

End FormatMillisMore.

(** X1. Two non-negative durations are displayed alike exactly when they
    have the same number of whole seconds: [formatMillis] drops the
    milliseconds and nothing else. *)
Theorem formatMillis_same_label_iff_same_second (a b : Z) :
  0 <= a -> 0 <= b ->
  (formatMillis a = formatMillis b <-> a / 1000 = b / 1000).
Proof.
  intros Ha Hb. split.
  - rewrite !formatMillis_nonneg by assumption. intros H.
    apply append_inj_tail in H; [| reflexivity].
    destruct H as (Hm & Hs).
    apply toString_inj in Hm.
    injection Hs as Hhi Hlo.
    assert (Hs' : two_digits ((a / 1000) mod 60)
                  = two_digits ((b / 1000) mod 60))
      by (unfold two_digits; now rewrite Hhi, Hlo).
    apply two_digits_inj in Hs'; try (apply Z.mod_pos_bound; lia).
    change 60000 with (1000 * 60) in Hm.
    rewrite <- !Z.div_div in Hm by lia.
    rewrite (Z.div_mod (a / 1000) 60), (Z.div_mod (b / 1000) 60) by lia.
    now rewrite Hm, Hs'.
  - intros H. unfold formatMillis. now rewrite H.
Qed.

Lemma formatMillis_same_label_iff_same_second_witness :
  0 <= 61000 /\ 0 <= 61999 /\ formatMillis 61000 = formatMillis 61999.
Proof.
  split; [lia |]. split; [lia |].
  apply (formatMillis_same_label_iff_same_second 61000 61999); [lia | lia |].
  reflexivity.
Defined.

(** ** Recording: the paths the lifecycle takes *)

Import ExploreRest.

Lemma start_succeeds_inv (o : StartOracle) :
  start_succeeds o = true ->
  permission o = Resolved "granted" /\ setAudioMode o = Resolved tt
  /\ prepareToRecord o = Resolved tt /\ startAsync o = Resolved tt.
Proof.
  unfold start_succeeds.
  destruct (permission o) as [status|]; [| discriminate].
  destruct (String.eqb status "granted") eqn:Hs; [| discriminate].
  apply String.eqb_eq in Hs. subst status.
  destruct (setAudioMode o) as [[]|]; [| discriminate].
  destruct (prepareToRecord o) as [[]|]; [| discriminate].
  destruct (startAsync o) as [[]|]; [| discriminate].
  auto.
Qed.

(** The whole component after a [startRecording] that succeeds. *)
Lemma startRecording_succeeds (o : StartOracle) (σ : Sys) :
  start_succeeds o = true ->
  st (settle (startRecording o) σ) =
    with_isPreparing false
      (with_recordingUri None
         (with_isRecording true
            (with_recordingRef (Some (newRecording o)) (st σ))))
  /\ log (settle (startRecording o) σ) =
       log σ ++
         [RequestPermissionsAsync true; SetAudioModeAsync true;
          NewRecording (newRecording o);
          SetOnRecordingStatusUpdate (newRecording o);
          PrepareToRecordAsync (newRecording o) true;
          StartAsync (newRecording o) true].
Proof.
  intros H. destruct (start_succeeds_inv o H) as (Hp & Ha & Hr & Hs).
  unfold_handler. rewrite Hp, Ha, Hr, Hs. cbn.
  rewrite <- !app_assoc. open_sys σ. split; reflexivity.
Qed.

(** X2. A [startRecording] whose every platform call succeeds leaves the
    component recording, with the new recording object in the ref and the
    spinner off; it discards whatever file reference there was, shows no
    alert, and does not reset the duration cell, which keeps the value of the
    previous recording until the first status callback. *)
Theorem startRecording_success (o : StartOracle) (σ : Sys) :
  start_succeeds o = true ->
  let σ' := settle (startRecording o) σ in
  isRecording (st σ') = true /\
  recordingRef (st σ') = Some (newRecording o) /\
  recordingUri (st σ') = None /\
  isPreparing (st σ') = false /\
  recordingDurationMillis (st σ') = recordingDurationMillis (st σ) /\
  isPlaying (st σ') = isPlaying (st σ) /\
  playbackRef (st σ') = playbackRef (st σ) /\
  alerts (log σ') = alerts (log σ) /\
  log σ' =
    log σ ++
      [RequestPermissionsAsync true; SetAudioModeAsync true;
       NewRecording (newRecording o);
       SetOnRecordingStatusUpdate (newRecording o);
       PrepareToRecordAsync (newRecording o) true;
       StartAsync (newRecording o) true].
Proof.
  intros H σ'. subst σ'.
  destruct (startRecording_succeeds o σ H) as (Hst & Hlog).
  rewrite Hst, Hlog, alerts_app. cbn. rewrite app_nil_r.
  repeat split; reflexivity.
Qed.

Lemma startRecording_success_witness :
  start_succeeds MoreSamples.start_again = true /\
  recordingUri (st Samples.recorded_sys) = Some "file:///memo.m4a" /\
  recordingUri (st (settle (startRecording MoreSamples.start_again)
                      Samples.recorded_sys)) = None.
Proof.
  split; [reflexivity |]. split; [reflexivity |].
  pose proof (startRecording_success MoreSamples.start_again
                Samples.recorded_sys eq_refl) as H.
  cbv zeta in H. destruct H as (_ & _ & H & _). exact H.
Defined.

Lemma stopAndUnload_calls_app (l1 l2 : list Effect) :
  stopAndUnload_calls (l1 ++ l2) =
    stopAndUnload_calls l1 ++ stopAndUnload_calls l2.
Proof. apply List.filter_app. Qed.

(** X3. [startRecording] never calls [stopAndUnloadAsync], whatever the
    platform answers.  So when the ref already holds a recording and the call
    gets past [setAudioModeAsync], that recording is replaced in the ref by
    the new object without having been released. *)
Theorem startRecording_never_releases (o : StartOracle) (σ : Sys) :
  let σ' := settle (startRecording o) σ in
  stopAndUnload_calls (log σ') = stopAndUnload_calls (log σ) /\
  (forall old : nat,
      recordingRef (st σ) = Some old ->
      permission o = Resolved "granted" ->
      resolved (setAudioMode o) = true ->
      recordingRef (st σ') = Some (newRecording o)).
Proof.
  intros σ'. subst σ'. split.
  - unfold_handler.
    destruct (permission o) as [status|e0]; cbn;
      [destruct (String.eqb status "granted"); cbn;
       [destruct (setAudioMode o) as [[]|e1]; cbn;
        [destruct (prepareToRecord o) as [[]|e2]; cbn;
         [destruct (startAsync o) as [[]|e3]; cbn | ] | ] | ] | ];
      rewrite <- ?app_assoc, stopAndUnload_calls_app; cbn;
      apply app_nil_r.
  - intros old Hold Hp Ha. unfold_handler. rewrite Hp. cbn.
    destruct (setAudioMode o) as [[]|e1]; [| discriminate Ha]. cbn.
    destruct (prepareToRecord o) as [[]|e2]; cbn;
      [destruct (startAsync o) as [[]|e3]; cbn |]; reflexivity.
Qed.

Lemma startRecording_never_releases_witness :
  recordingRef (st Samples.recording_sys) = Some 7%nat /\
  permission MoreSamples.start_again = Resolved "granted" /\
  resolved (setAudioMode MoreSamples.start_again) = true /\
  recordingRef (st (settle (startRecording MoreSamples.start_again)
                      Samples.recording_sys)) = Some 8%nat.
Proof.
  split; [reflexivity |]. split; [reflexivity |]. split; [reflexivity |].
  destruct (startRecording_never_releases MoreSamples.start_again
              Samples.recording_sys) as (_ & H).
  apply (H 7%nat); reflexivity.
Defined.

(** X4. A successful start followed by a stop whose finalisation resolves:
    the stop releases exactly the recording the start created, the file
    reference is what that recording reports, the ref is empty again and the
    component is no longer recording; with a non-empty URI and no playback
    under way the component is idle with its file. *)
Theorem record_then_stop (o1 : StartOracle) (o2 : StopOracle) (σ : Sys) :
  start_succeeds o1 = true ->
  stopAndUnload o2 = Resolved tt ->
  let σ' := run [CallStart o1; CallStop o2] σ in
  isRecording (st σ') = false /\
  isPreparing (st σ') = false /\
  recordingRef (st σ') = None /\
  recordingUri (st σ') = getURI o2 /\
  log σ' =
    log σ ++
      [RequestPermissionsAsync true; SetAudioModeAsync true;
       NewRecording (newRecording o1);
       SetOnRecordingStatusUpdate (newRecording o1);
       PrepareToRecordAsync (newRecording o1) true;
       StartAsync (newRecording o1) true;
       StopAndUnloadAsync (newRecording o1) true;
       GetURI (newRecording o1)] /\
  (truthy (getURI o2) = true ->
   isPlaying (st σ) = false -> loadingPlay (st σ) = false ->
   idle_with_file (st σ') = true).
Proof.
  intros H1 H2 σ'. subst σ'. cbn [run fold_left handler].
  destruct (startRecording_succeeds o1 σ H1) as (Hst & Hlog).
  assert (Href : recordingRef (st (settle (startRecording o1) σ))
                 = Some (newRecording o1)) by (rewrite Hst; reflexivity).
  destruct (stopRecording_resolved o2 _ _ Href H2) as (Hst2 & Hlog2 & _).
  rewrite Hst2, Hlog2, Hst, Hlog, <- app_assoc. cbn.
  repeat split; try reflexivity.
  intros Hu Hp Hl. unfold idle_with_file. cbn. rewrite Hu, Hp, Hl. reflexivity.
Qed.

Lemma record_then_stop_witness :
  start_succeeds Samples.start_ok = true /\
  stopAndUnload Samples.stop_ok = Resolved tt /\
  truthy (getURI Samples.stop_ok) = true /\
  isPlaying (st boot) = false /\ loadingPlay (st boot) = false /\
  idle_with_file
    (st (run [CallStart Samples.start_ok; CallStop Samples.stop_ok] boot))
    = true.
Proof.
  split; [reflexivity |]. split; [reflexivity |]. split; [reflexivity |].
  split; [reflexivity |]. split; [reflexivity |].
  pose proof (record_then_stop Samples.start_ok Samples.stop_ok boot
                eq_refl eq_refl) as H.
  cbv zeta in H. destruct H as (_ & _ & _ & _ & _ & H).
  apply H; reflexivity.
Defined.


(** X5. A failed stop can be retried: after a [stopRecording] whose
    finalisation rejects, a second call addresses the same recording, and if
    it resolves the cells end up exactly as if the first call had never been
    made; only the log keeps the failed attempt and its alert. *)
Theorem stopRecording_retry (o1 o2 : StopOracle) (σ : Sys) (h : nat)
    (err : string) :
  recordingRef (st σ) = Some h ->
  stopAndUnload o1 = Rejected err ->
  stopAndUnload o2 = Resolved tt ->
  st (run [CallStop o1; CallStop o2] σ) = st (run [CallStop o2] σ) /\
  log (run [CallStop o1; CallStop o2] σ) =
    log σ ++
      [StopAndUnloadAsync h false; ConsoleError "stopRecording error";
       Alert "Stop failed" "Could not stop recording cleanly.";
       StopAndUnloadAsync h true; GetURI h].
Proof.
  intros Href H1 H2. cbn [run fold_left handler].
  destruct (stopRecording_rejected o1 σ h err Href H1) as (Hst1 & Hlog1 & _).
  assert (Href1 : recordingRef (st (settle (stopRecording o1) σ)) = Some h)
    by (rewrite Hst1; exact Href).
  destruct (stopRecording_resolved o2 _ h Href1 H2) as (Hst2 & Hlog2 & _).
  destruct (stopRecording_resolved o2 σ h Href H2) as (Hst & _ & _).
  rewrite Hst2, Hlog2, Hst1, Hlog1, Hst, <- app_assoc.
  split; [open_sys σ; reflexivity | reflexivity].
Qed.

Lemma stopRecording_retry_witness :
  recordingRef (st Samples.recording_sys) = Some 7%nat /\
  stopAndUnload Samples.stop_fails = Rejected "finalize failed" /\
  stopAndUnload Samples.stop_ok = Resolved tt /\
  st (run [CallStop Samples.stop_fails; CallStop Samples.stop_ok]
        Samples.recording_sys) = st Samples.recorded_sys.
Proof.
  split; [reflexivity |]. split; [reflexivity |]. split; [reflexivity |].
  destruct (stopRecording_retry Samples.stop_fails Samples.stop_ok
              Samples.recording_sys 7%nat "finalize failed"
              eq_refl eq_refl eq_refl) as (H & _).
  etransitivity; [exact H | vm_compute; reflexivity].
Defined.

(** The recording callback writes the duration and nothing else, and only
    for a status that is still recording. *)
Lemma onRecordingStatusUpdate_settles (status : RecordingStatus) (σ : Sys) :
  st (settle (onRecordingStatusUpdate status) σ) =
    (if status_isRecording status
     then with_recordingDurationMillis
            (nullish (status_durationMillis status) 0) (st σ)
     else st σ)
  /\ log (settle (onRecordingStatusUpdate status) σ) = log σ.
Proof.
  unfold_handler. destruct (status_isRecording status); cbn; auto.
Qed.

(** X6. The duration shown for a finished recording is the last value the
    recording callback delivered while recording: [stopRecording] keeps it,
    and a status that arrives afterwards with [isRecording] false does not
    overwrite it. *)
Theorem duration_is_last_tick (o : StopOracle) (σ : Sys) (h : nat) (d : Z)
    (late : RecordingStatus) :
  recordingRef (st σ) = Some h ->
  stopAndUnload o = Resolved tt ->
  status_isRecording late = false ->
  recordingDurationMillis
    (st (run [RecordingStatusUpdate
                {| status_isRecording := true;
                   status_durationMillis := Some d |};
              CallStop o;
              RecordingStatusUpdate late] σ)) = d.
Proof.
  intros Href Ho Hlate. cbn [run fold_left handler].
  destruct (onRecordingStatusUpdate_settles late
              (settle (stopRecording o)
                 (settle (onRecordingStatusUpdate
                            {| status_isRecording := true;
                               status_durationMillis := Some d |}) σ)))
    as (Hst3 & _).
  rewrite Hst3, Hlate.
  destruct (onRecordingStatusUpdate_settles
              {| status_isRecording := true; status_durationMillis := Some d |}
              σ) as (Hst1 & _).
  cbn [status_isRecording status_durationMillis nullish] in Hst1.
  assert (Href1 : recordingRef
                    (st (settle (onRecordingStatusUpdate
                                   {| status_isRecording := true;
                                      status_durationMillis := Some d |}) σ))
                  = Some h) by (rewrite Hst1; exact Href).
  destruct (stopRecording_resolved o _ h Href1 Ho) as (Hst2 & _ & _).
  rewrite Hst2, Hst1. reflexivity.
Qed.

Lemma duration_is_last_tick_witness :
  recordingRef (st Samples.recording_sys) = Some 7%nat /\
  stopAndUnload Samples.stop_ok = Resolved tt /\
  status_isRecording MoreSamples.tick_stopped = false /\
  recordingDurationMillis
    (st (run [RecordingStatusUpdate MoreSamples.tick_61s;
              CallStop Samples.stop_ok;
              RecordingStatusUpdate MoreSamples.tick_stopped]
           Samples.recording_sys)) = 61000.
Proof.
  split; [reflexivity |]. split; [reflexivity |]. split; [reflexivity |].
  apply (duration_is_last_tick Samples.stop_ok Samples.recording_sys 7%nat
           61000 MoreSamples.tick_stopped); reflexivity.
Defined.

(** X7. What the status line says along a recording: right after a
    successful start it reads "Recording" with the duration of the previous
    state (not yet reset), after a tick it reads "Recording" with the ticked
    duration, and after a resolved stop that yields a non-empty URI it reads
    "Recorded" with that same duration. *)
Theorem statusText_along_a_recording (o1 : StartOracle) (o2 : StopOracle)
    (σ : Sys) (d : Z) :
  start_succeeds o1 = true ->
  stopAndUnload o2 = Resolved tt ->
  truthy (getURI o2) = true ->
  let tick := RecordingStatusUpdate
                {| status_isRecording := true;
                   status_durationMillis := Some d |} in
  statusText (st (run [CallStart o1] σ)) =
    String.append "Recording · "
      (formatMillis (recordingDurationMillis (st σ))) /\
  statusText (st (run [CallStart o1; tick] σ)) =
    String.append "Recording · " (formatMillis d) /\
  statusText (st (run [CallStart o1; tick; CallStop o2] σ)) =
    String.append "Recorded · " (formatMillis d).
Proof.
  intros H1 H2 Hu tick. subst tick. cbn [run fold_left handler].
  destruct (startRecording_succeeds o1 σ H1) as (Hst & _).
  set (σ1 := settle (startRecording o1) σ) in *.
  destruct (onRecordingStatusUpdate_settles
              {| status_isRecording := true; status_durationMillis := Some d |}
              σ1) as (Hst1 & _).
  cbn [status_isRecording status_durationMillis nullish] in Hst1.
  set (σ2 := settle (onRecordingStatusUpdate _) σ1) in *.
  assert (Href : recordingRef (st σ2) = Some (newRecording o1))
    by (rewrite Hst1, Hst; reflexivity).
  destruct (stopRecording_resolved o2 σ2 _ Href H2) as (Hst2 & _ & _).
  rewrite Hst2, Hst1, Hst. unfold statusText. cbn. rewrite Hu.
  repeat split; reflexivity.
Qed.

Lemma statusText_along_a_recording_witness :
  start_succeeds Samples.start_ok = true /\
  stopAndUnload Samples.stop_ok = Resolved tt /\
  truthy (getURI Samples.stop_ok) = true /\
  statusText
    (st (run [CallStart Samples.start_ok;
              RecordingStatusUpdate
                {| status_isRecording := true;
                   status_durationMillis := Some 61000 |};
              CallStop Samples.stop_ok] boot)) = "Recorded · 1:01".
Proof.
  split; [reflexivity |]. split; [reflexivity |]. split; [reflexivity |].
  pose proof (statusText_along_a_recording Samples.start_ok Samples.stop_ok
                boot 61000 eq_refl eq_refl eq_refl) as H.
  cbv zeta in H. destruct H as (_ & _ & H). rewrite H. reflexivity.
Defined.


(** ** Playback: the paths the lifecycle takes *)

(** X8. A [playRecording] with a file, whose unload of the previous sound (if
    there is one) and whose [createAsync] both resolve: the sound is created
    from exactly the stored URI, it is put in the ref, [isPlaying] is true,
    [loadingPlay] is false and no alert is shown. *)
Theorem playRecording_success (o : PlayOracle) (σ : Sys) (uri : string)
    (sound : nat) :
  recordingUri (st σ) = Some uri ->
  truthy (Some uri) = true ->
  playbackRef (st σ) = None \/ unloadPrevious o = Resolved tt ->
  createSound o = Resolved sound ->
  let σ' := settle (playRecording o) σ in
  isPlaying (st σ') = true /\
  loadingPlay (st σ') = false /\
  playbackRef (st σ') = Some sound /\
  recordingUri (st σ') = Some uri /\
  alerts (log σ') = alerts (log σ) /\
  log σ' =
    log σ ++
      match playbackRef (st σ) with
      | Some previous => [SoundUnloadAsync previous true]
      | None => []
      end ++
      [SoundCreateAsync uri (Some sound); SetOnPlaybackStatusUpdate sound].
Proof.
  intros Huri Ht Hprev Hc σ'. subst σ'.
  unfold_handler. rewrite Huri, Ht, Hc. cbn.
  destruct (playbackRef (st σ)) as [p|] eqn:Hp.
  - destruct Hprev as [Hprev | Hprev]; [discriminate |].
    rewrite Hprev. cbn. rewrite <- !app_assoc, alerts_app. cbn.
    rewrite app_nil_r, ?Huri. repeat split; reflexivity.
  - cbn. rewrite ?Hp. cbn. rewrite <- !app_assoc, alerts_app. cbn.
    rewrite app_nil_r, ?Huri. repeat split; reflexivity.
Qed.

Lemma playRecording_success_witness :
  recordingUri (st Samples.recorded_sys) = Some "file:///memo.m4a" /\
  truthy (Some "file:///memo.m4a") = true /\
  playbackRef (st Samples.recorded_sys) = None /\
  createSound Samples.play_ok = Resolved 4%nat /\
  playbackRef (st (settle (playRecording Samples.play_ok)
                     Samples.recorded_sys)) = Some 4%nat.
Proof.
  split; [reflexivity |]. split; [reflexivity |]. split; [reflexivity |].
  split; [reflexivity |].
  pose proof (playRecording_success Samples.play_ok Samples.recorded_sys
                "file:///memo.m4a" 4%nat eq_refl eq_refl
                (or_introl eq_refl) eq_refl) as H.
  cbv zeta in H. destruct H as (_ & _ & H & _). exact H.
Defined.

(** X9. A [playRecording] with a file in which the unload of the previous
    sound or [createAsync] rejects: the "Playback failed" alert is the one
    alert shown, [isPlaying] and [loadingPlay] are false, and the file
    reference is kept.  A previous sound whose unload rejected stays in the
    ref; after a rejected [createAsync] the ref is empty. *)
Theorem playRecording_failure (o : PlayOracle) (σ : Sys) :
  truthy (recordingUri (st σ)) = true ->
  match playbackRef (st σ) with
  | Some _ => resolved (unloadPrevious o) && resolved (createSound o)
  | None => resolved (createSound o)
  end = false ->
  let σ' := settle (playRecording o) σ in
  alerts (log σ') =
    alerts (log σ) ++ [Alert "Playback failed" "Could not play recording."] /\
  isPlaying (st σ') = false /\
  loadingPlay (st σ') = false /\
  recordingUri (st σ') = recordingUri (st σ) /\
  playbackRef (st σ') =
    match playbackRef (st σ) with
    | Some previous =>
        if resolved (unloadPrevious o) then None else Some previous
    | None => None
    end.
Proof.
  intros Ht Hfail σ'. subst σ'. revert Hfail.
  unfold_handler. rewrite Ht. cbn.
  destruct (playbackRef (st σ)) as [p|] eqn:Hp;
    [destruct (unloadPrevious o) as [[]|e1] |];
    try destruct (createSound o) as [snd|e2]; cbn; intros Hfail;
    try discriminate Hfail;
    rewrite ?Hp, <- ?app_assoc, alerts_app; cbn;
    repeat split; reflexivity.
Qed.

Lemma playRecording_failure_witness :
  truthy (recordingUri (st Samples.playing_sys)) = true /\
  playbackRef (st Samples.playing_sys) = Some 3%nat /\
  resolved (unloadPrevious MoreSamples.play_create_fails)
  && resolved (createSound MoreSamples.play_create_fails) = false /\
  isPlaying (st (settle (playRecording MoreSamples.play_create_fails)
                   Samples.playing_sys)) = false /\
  playbackRef (st (settle (playRecording MoreSamples.play_create_fails)
                     Samples.playing_sys)) = None.
Proof.
  split; [reflexivity |]. split; [reflexivity |]. split; [reflexivity |].
  pose proof (playRecording_failure MoreSamples.play_create_fails
                Samples.playing_sys eq_refl eq_refl) as H.
  cbv zeta in H. destruct H as (_ & H1 & _ & _ & H2).
  split; [exact H1 | exact H2].
Defined.

(** X10. Playing to the end is a round trip on the cells: from a component
    that holds a file and no sound and is not playing, a successful
    [playRecording] followed by the finished status of its sound restores
    every cell; the log shows the sound created and then unloaded. *)
Theorem play_to_the_end_restores (o : PlayOracle) (σ : Sys) (uri : string)
    (sound : nat) (unload : outcome unit) :
  recordingUri (st σ) = Some uri ->
  truthy (Some uri) = true ->
  playbackRef (st σ) = None ->
  isPlaying (st σ) = false ->
  loadingPlay (st σ) = false ->
  createSound o = Resolved sound ->
  let σ' :=
    run [CallPlay o;
         PlaybackStatusUpdate sound unload (Some (StatusSuccess true))] σ in
  st σ' = st σ /\
  log σ' =
    log σ ++
      [SoundCreateAsync uri (Some sound); SetOnPlaybackStatusUpdate sound;
       SoundUnloadAsync sound (resolved unload)].
Proof.
  intros Huri Ht Hp Hpl Hl Hc σ'. subst σ'. cbn [run fold_left handler].
  rewrite onPlaybackStatusUpdate_finished. cbn [st log].
  unfold_handler. rewrite Huri, Ht, Hc. cbn. rewrite Hp. cbn.
  rewrite <- !app_assoc.
  split; [| reflexivity].
  open_sys σ. subst. reflexivity.
Qed.

Lemma play_to_the_end_restores_witness :
  recordingUri (st Samples.recorded_sys) = Some "file:///memo.m4a" /\
  truthy (Some "file:///memo.m4a") = true /\
  playbackRef (st Samples.recorded_sys) = None /\
  isPlaying (st Samples.recorded_sys) = false /\
  loadingPlay (st Samples.recorded_sys) = false /\
  createSound Samples.play_ok = Resolved 4%nat /\
  st (run [CallPlay Samples.play_ok;
           PlaybackStatusUpdate 4 (Resolved tt) (Some (StatusSuccess true))]
        Samples.recorded_sys) = st Samples.recorded_sys.
Proof.
  split; [reflexivity |]. split; [reflexivity |]. split; [reflexivity |].
  split; [reflexivity |]. split; [reflexivity |]. split; [reflexivity |].
  pose proof (play_to_the_end_restores Samples.play_ok Samples.recorded_sys
                "file:///memo.m4a" 4%nat (Resolved tt)
                eq_refl eq_refl eq_refl eq_refl eq_refl eq_refl) as H.
  cbv zeta in H. destruct H as (H & _). exact H.
Defined.

(** X11. The playback callback acts on one kind of status only: the
    component (cells, log and writes) is left exactly as it was if and only
    if the status is missing, not loaded, or loaded without
    [didJustFinish]. *)
Theorem onPlaybackStatusUpdate_acts_only_on_finish (sound : nat)
    (unload : outcome unit) (status : option AVPlaybackStatus) (σ : Sys) :
  settle (onPlaybackStatusUpdate sound unload status) σ = σ
  <-> status <> Some (StatusSuccess true).
Proof.
  split.
  - intros H Hs. subst status. rewrite onPlaybackStatusUpdate_finished in H.
    apply (f_equal log) in H. cbn in H. symmetry in H.
    apply app_inv_head_nil in H. discriminate H.
  - apply onPlaybackStatusUpdate_ignored.
Qed.

Lemma onPlaybackStatusUpdate_acts_only_on_finish_witness :
  Some (StatusError None) <> Some (StatusSuccess true) /\
  settle (onPlaybackStatusUpdate 3 (Resolved tt) (Some (StatusError None)))
    Samples.playing_sys = Samples.playing_sys.
Proof.
  assert (H : Some (StatusError None) <> Some (StatusSuccess true))
    by discriminate.
  split; [exact H |].
  apply (onPlaybackStatusUpdate_acts_only_on_finish 3 (Resolved tt)
           (Some (StatusError None)) Samples.playing_sys).
  exact H.
Defined.

(** ** Unmount *)

(** The component after the unmount cleanup, case by case. *)
Lemma cleanup_settles (o : CleanupOracle) (σ : Sys) :
  st (settle (cleanup o) σ) =
    with_playbackRef None (with_recordingRef None (st σ))
  /\ log (settle (cleanup o) σ) =
       log σ ++
         match recordingRef (st σ) with
         | Some recording =>
             [StopAndUnloadAsync recording (resolved (cleanupStopAndUnload o))]
         | None => []
         end ++
         match playbackRef (st σ) with
         | Some sound => [SoundUnloadAsync sound (resolved (cleanupUnload o))]
         | None => []
         end
  /\ rejects (cleanup o) σ = false.
Proof.
  unfold cleanup. unfold_handler.
  destruct (recordingRef (st σ)) as [r|] eqn:Hr; cbn;
    destruct (playbackRef (st σ)) as [p|] eqn:Hp; cbn;
    rewrite <- ?app_assoc, ?app_nil_r; cbn;
    open_sys σ; subst; repeat split; reflexivity.
Qed.

(** X12. The unmount cleanup empties both refs and asks the platform to
    release exactly what they held, one call each, in the order recording
    then sound.  It writes no [useState] cell, shows no alert and never
    throws, whatever the two release calls answer; and when the sound's
    unload resolves and the sound in the ref was the only one loaded, no
    sound is loaded afterwards. *)
Theorem cleanup_releases_everything (o : CleanupOracle) (σ : Sys) :
  let σ' := settle (cleanup o) σ in
  recordingRef (st σ') = None /\
  playbackRef (st σ') = None /\
  st σ' = with_playbackRef None (with_recordingRef None (st σ)) /\
  log σ' =
    log σ ++
      match recordingRef (st σ) with
      | Some recording =>
          [StopAndUnloadAsync recording (resolved (cleanupStopAndUnload o))]
      | None => []
      end ++
      match playbackRef (st σ) with
      | Some sound => [SoundUnloadAsync sound (resolved (cleanupUnload o))]
      | None => []
      end /\
  alerts (log σ') = alerts (log σ) /\
  rejects (cleanup o) σ = false /\
  (forall (L : gset nat) (new : list Effect),
      L ⊆ owned_sound (st σ) ->
      cleanupUnload o = Resolved tt ->
      log σ' = log σ ++ new ->
      live_sounds new L = ∅).
Proof.
  intros σ'. subst σ'.
  destruct (cleanup_settles o σ) as (Hst & Hlog & Hrej).
  rewrite Hst, Hlog. cbn.
  split; [reflexivity |]. split; [reflexivity |]. split; [reflexivity |].
  split; [reflexivity |]. split; [| split; [exact Hrej |]].
  - rewrite !alerts_app.
    destruct (recordingRef (st σ)); destruct (playbackRef (st σ)); cbn;
      rewrite ?app_nil_r; reflexivity.
  - intros L new HL Hu Hnew. apply app_inv_head in Hnew. subst new.
    unfold owned_sound in HL. rewrite Hu. cbn.
    destruct (recordingRef (st σ)); destruct (playbackRef (st σ)); cbn;
      apply equiv_empty_L;
      first [assumption | apply unload_owned; assumption].
Qed.

Lemma cleanup_releases_everything_witness :
  ({[ 3%nat ]} : gset nat) ⊆ owned_sound (st Samples.playing_sys) /\
  cleanupUnload MoreSamples.cleanup_ok = Resolved tt /\
  live_sounds [SoundUnloadAsync 3 true] {[ 3%nat ]} = ∅.
Proof.
  assert (H0 : ({[ 3%nat ]} : gset nat) ⊆ owned_sound (st Samples.playing_sys))
    by (cbn; reflexivity).
  split; [exact H0 |]. split; [reflexivity |].
  pose proof (cleanup_releases_everything MoreSamples.cleanup_ok
                Samples.playing_sys) as H.
  cbv zeta in H. destruct H as (_ & _ & _ & _ & _ & _ & H).
  apply (H {[ 3%nat ]} [SoundUnloadAsync 3 true] H0 eq_refl).
  vm_compute. reflexivity.
Defined.

(** X13. The cleanup is idempotent: run a second time it finds both refs
    empty and does nothing at all, not even a platform call. *)
Theorem cleanup_twice (o1 o2 : CleanupOracle) (σ : Sys) :
  st (settle (cleanup o2) (settle (cleanup o1) σ)) = st (settle (cleanup o1) σ)
  /\ log (settle (cleanup o2) (settle (cleanup o1) σ))
     = log (settle (cleanup o1) σ).
Proof.
  destruct (cleanup_settles o1 σ) as (Hst1 & _ & _).
  destruct (cleanup_settles o2 (settle (cleanup o1) σ)) as (Hst2 & Hlog2 & _).
  rewrite Hst2, Hlog2, Hst1. cbn. rewrite app_nil_r. split; reflexivity.
Qed.

(** ** What holds after every run *)

Section HandlesInvariant.

Variable σ : Sys.

(** While the component records it holds a recording and no file reference,
    and while it plays it holds a sound. *)
Hypothesis Hrec :
  isRecording (st σ) = true ->
  recordingUri (st σ) = None /\ is_Some (recordingRef (st σ)).
Hypothesis Hplay :
  isPlaying (st σ) = true -> is_Some (playbackRef (st σ)).

Lemma startRecording_keeps_handles (o : StartOracle) :
  let s' := st (settle (startRecording o) σ) in
  (isRecording s' = true -> recordingUri s' = None /\ is_Some (recordingRef s'))
  /\ (isPlaying s' = true -> is_Some (playbackRef s')).
Proof.
  unfold_handler.
  destruct (permission o) as [status|e0]; cbn;
    [destruct (String.eqb status "granted"); cbn;
     [destruct (setAudioMode o) as [[]|e1]; cbn;
      [destruct (prepareToRecord o) as [[]|e2]; cbn;
       [destruct (startAsync o) as [[]|e3]; cbn | ] | ] | ] | ];
    split; try exact Hplay; try exact Hrec; intros H;
    try (split; [reflexivity | eexists; reflexivity]);
    destruct (Hrec H) as (Hu & Hr); split; try exact Hu;
    try exact Hr; eexists; reflexivity.
Qed.

Lemma stopRecording_keeps_handles (o : StopOracle) :
  let s' := st (settle (stopRecording o) σ) in
  (isRecording s' = true -> recordingUri s' = None /\ is_Some (recordingRef s'))
  /\ (isPlaying s' = true -> is_Some (playbackRef s')).
Proof.
  unfold_handler.
  destruct (recordingRef (st σ)) as [h|] eqn:Href; cbn;
    [destruct (stopAndUnload o) as [[]|e]; cbn |];
    rewrite ?Href; split; try exact Hplay; try discriminate; intros H;
    destruct (Hrec H) as (Hu & Hr); split; try exact Hu; try exact Hr;
    eexists; reflexivity.
Qed.

Lemma playRecording_keeps_handles (o : PlayOracle) :
  let s' := st (settle (playRecording o) σ) in
  (isRecording s' = true -> recordingUri s' = None /\ is_Some (recordingRef s'))
  /\ (isPlaying s' = true -> is_Some (playbackRef s')).
Proof.
  unfold_handler.
  destruct (truthy (recordingUri (st σ))); cbn;
    [destruct (playbackRef (st σ)) as [p|] eqn:Hp;
     [destruct (unloadPrevious o) as [[]|e1] |];
     try destruct (createSound o) as [snd|e2]; cbn |];
    split; try exact Hrec; try exact Hplay; try discriminate;
    intros _; eexists; reflexivity.
Qed.

Lemma callbacks_keep_handles :
  (forall status,
      let s' := st (settle (onRecordingStatusUpdate status) σ) in
      (isRecording s' = true ->
       recordingUri s' = None /\ is_Some (recordingRef s'))
      /\ (isPlaying s' = true -> is_Some (playbackRef s')))
  /\ (forall sound unload status,
      let s' := st (settle (onPlaybackStatusUpdate sound unload status) σ) in
      (isRecording s' = true ->
       recordingUri s' = None /\ is_Some (recordingRef s'))
      /\ (isPlaying s' = true -> is_Some (playbackRef s'))).
Proof.
  split.
  - intros [[] d]; unfold_handler; cbn; split; try exact Hrec; exact Hplay.
  - intros sound unload [[e | []] |]; unfold_handler; cbn;
      split; try exact Hrec; try exact Hplay; discriminate.
Qed.

Lemma handler_keeps_handles (e : Event) :
  let s' := st (settle (handler e) σ) in
  (isRecording s' = true -> recordingUri s' = None /\ is_Some (recordingRef s'))
  /\ (isPlaying s' = true -> is_Some (playbackRef s')).
Proof.
  destruct e as [o | o | o | o1 o2 | o | status | sound unload status];
    cbn [handler].
  - apply startRecording_keeps_handles.
  - apply stopRecording_keeps_handles.
  - apply playRecording_keeps_handles.
  - unfold recordButton_onPress, settle, gets, mbind, M_bind.
    case (isRecording (st σ)).
    + apply stopRecording_keeps_handles.
    + apply startRecording_keeps_handles.
  - unfold playButton_onPress, settle, gets, mbind, M_bind.
    case (playButton_disabled (st σ)); cbn.
    + split; [exact Hrec | exact Hplay].
    + apply playRecording_keeps_handles.
  - apply callbacks_keep_handles.
  - apply callbacks_keep_handles.
Qed.

End HandlesInvariant.

Lemma run_keeps_handles (events : list Event) (σ : Sys) :
  (isRecording (st σ) = true ->
   recordingUri (st σ) = None /\ is_Some (recordingRef (st σ))) ->
  (isPlaying (st σ) = true -> is_Some (playbackRef (st σ))) ->
  let s' := st (run events σ) in
  (isRecording s' = true -> recordingUri s' = None /\ is_Some (recordingRef s'))
  /\ (isPlaying s' = true -> is_Some (playbackRef s')).
Proof.
  revert σ. induction events as [| e events IH]; intros σ Hrec Hplay; cbn.
  - split; assumption.
  - destruct (handler_keeps_handles σ Hrec Hplay e) as (H1 & H2).
    apply IH; assumption.
Qed.

(** X14. After every run of a freshly mounted component, if the component is
    recording then it holds a recording and has no file reference.  Hence the
    Play button is disabled, a call of [playRecording] does nothing, and a
    press on the Record button reaches [stopAndUnloadAsync] on the held
    recording rather than the silent return of [stopRecording]. *)
Theorem recording_holds_its_handle (events : list Event) :
  let σ := run events boot in
  isRecording (st σ) = true ->
  recordingUri (st σ) = None /\
  playButton_disabled (st σ) = true /\
  (forall o : PlayOracle, settle (playRecording o) σ = σ) /\
  exists h : nat,
    recordingRef (st σ) = Some h /\
    forall (o1 : StartOracle) (o2 : StopOracle),
    exists rest : list Effect,
      log (settle (recordButton_onPress o1 o2) σ) =
        log σ ++ StopAndUnloadAsync h (resolved (stopAndUnload o2)) :: rest.
Proof.
  intros σ Hrec.
  destruct (run_keeps_handles events boot) as (Hinv & _);
    [discriminate | discriminate |].
  fold σ in Hinv. destruct (Hinv Hrec) as (Huri & h & Href).
  split; [exact Huri |]. split; [| split].
  - unfold playButton_disabled. rewrite Huri. reflexivity.
  - intros o. apply playRecording_without_file. rewrite Huri. reflexivity.
  - exists h. split; [exact Href |]. intros o1 o2.
    unfold recordButton_onPress, settle, gets, mbind, M_bind.
    rewrite Hrec.
    destruct (stopAndUnload o2) as [[]|err] eqn:Ho.
    + destruct (stopRecording_resolved o2 σ h Href Ho) as (_ & Hlog & _).
      unfold settle in Hlog. rewrite Hlog. eexists. reflexivity.
    + destruct (stopRecording_rejected o2 σ h err Href Ho) as (_ & Hlog & _).
      unfold settle in Hlog. rewrite Hlog. eexists. reflexivity.
Qed.

Lemma recording_holds_its_handle_witness :
  isRecording (st (run [PressRecord Samples.start_ok Samples.stop_ok] boot))
    = true /\
  playButton_disabled
    (st (run [PressRecord Samples.start_ok Samples.stop_ok] boot)) = true.
Proof.
  assert (H0 : isRecording
                 (st (run [PressRecord Samples.start_ok Samples.stop_ok] boot))
               = true) by (vm_compute; reflexivity).
  split; [exact H0 |].
  pose proof (recording_holds_its_handle
                [PressRecord Samples.start_ok Samples.stop_ok]) as H.
  cbv zeta in H. destruct (H H0) as (_ & Hd & _). exact Hd.
Defined.

(** X15. After every run of a freshly mounted component, if [isPlaying] is
    true then the playback ref holds a sound, and the Play button is
    disabled. *)
Theorem playing_holds_its_sound (events : list Event) :
  let σ := run events boot in
  isPlaying (st σ) = true ->
  (exists sound : nat, playbackRef (st σ) = Some sound) /\
  playButton_disabled (st σ) = true.
Proof.
  intros σ Hplay.
  destruct (run_keeps_handles events boot) as (_ & Hinv);
    [discriminate | discriminate |].
  fold σ in Hinv. split; [exact (Hinv Hplay) |].
  unfold playButton_disabled. rewrite Hplay.
  rewrite orb_true_r. reflexivity.
Qed.

Lemma playing_holds_its_sound_witness :
  isPlaying
    (st (run [CallStart Samples.start_ok; CallStop Samples.stop_ok;
              CallPlay Samples.play_ok] boot)) = true /\
  exists sound : nat,
    playbackRef
      (st (run [CallStart Samples.start_ok; CallStop Samples.stop_ok;
                CallPlay Samples.play_ok] boot)) = Some sound.
Proof.
  assert (H0 : isPlaying
                 (st (run [CallStart Samples.start_ok; CallStop Samples.stop_ok;
                           CallPlay Samples.play_ok] boot)) = true)
    by (vm_compute; reflexivity).
  split; [exact H0 |].
  pose proof (playing_holds_its_sound
                [CallStart Samples.start_ok; CallStop Samples.stop_ok;
                 CallPlay Samples.play_ok]) as H.
  cbv zeta in H. destruct (H H0) as (Hs & _). exact Hs.
Defined.

(** ** What one call adds to the log *)

(** Names the effects a handler appended to the log. *)
Ltac give_new :=
  first
    [ rewrite <- !app_assoc; cbn; eexists; split; [reflexivity |]
    | eexists; split; [reflexivity |]
    | exists []; split; [symmetry; apply app_nil_r |] ].

(** Closes an ownership goal left by a path of a handler. *)
Ltac keep_owned :=
  cbn;
  first
    [ assumption
    | apply create_when_none;
      first [assumption | apply unload_owned; assumption]
    | apply unload_owned; assumption ].

Section OneCall.

Variable σ : Sys.

Lemma startRecording_adds (o : StartOracle) :
  exists new : list Effect,
    log (settle (startRecording o) σ) = log σ ++ new
    /\ (length (alerts new) <= 1)%nat
    /\ forall L : gset nat,
        L ⊆ owned_sound (st σ) ->
        live_sounds new L ⊆ owned_sound (st (settle (startRecording o) σ)).
Proof.
  unfold owned_sound. unfold_handler.
  destruct (permission o) as [status|e0]; cbn;
    [destruct (String.eqb status "granted"); cbn;
     [destruct (setAudioMode o) as [[]|e1]; cbn;
      [destruct (prepareToRecord o) as [[]|e2]; cbn;
       [destruct (startAsync o) as [[]|e3]; cbn | ] | ] | ] | ];
    give_new; (split; [cbn; lia | intros L HL; keep_owned]).
Qed.

Lemma stopRecording_adds (o : StopOracle) :
  exists new : list Effect,
    log (settle (stopRecording o) σ) = log σ ++ new
    /\ (length (alerts new) <= 1)%nat
    /\ forall L : gset nat,
        L ⊆ owned_sound (st σ) ->
        live_sounds new L ⊆ owned_sound (st (settle (stopRecording o) σ)).
Proof.
  unfold owned_sound. unfold_handler.
  destruct (recordingRef (st σ)) as [h|]; cbn;
    [destruct (stopAndUnload o) as [[]|e]; cbn |];
    give_new; (split; [cbn; lia | intros L HL; keep_owned]).
Qed.

Lemma playRecording_adds (o : PlayOracle) :
  exists new : list Effect,
    log (settle (playRecording o) σ) = log σ ++ new
    /\ (length (alerts new) <= 1)%nat
    /\ forall L : gset nat,
        L ⊆ owned_sound (st σ) ->
        live_sounds new L ⊆ owned_sound (st (settle (playRecording o) σ)).
Proof.
  play_paths o σ;
    give_new; (split; [cbn; lia | intros L HL; cbn; rewrite ?Href; keep_owned]).
Qed.

Lemma onRecordingStatusUpdate_adds (status : RecordingStatus) :
  exists new : list Effect,
    log (settle (onRecordingStatusUpdate status) σ) = log σ ++ new
    /\ (length (alerts new) <= 1)%nat
    /\ forall L : gset nat,
        L ⊆ owned_sound (st σ) ->
        live_sounds new L
          ⊆ owned_sound (st (settle (onRecordingStatusUpdate status) σ)).
Proof.
  unfold owned_sound. unfold_handler.
  destruct (status_isRecording status); cbn;
    give_new; (split; [cbn; lia | intros L HL; keep_owned]).
Qed.

Lemma onPlaybackStatusUpdate_adds (sound : nat) (unload : outcome unit)
    (status : option AVPlaybackStatus) :
  exists new : list Effect,
    log (settle (onPlaybackStatusUpdate sound unload status) σ) = log σ ++ new
    /\ (length (alerts new) <= 1)%nat
    /\ (disciplined σ (PlaybackStatusUpdate sound unload status) = true ->
        forall L : gset nat,
          L ⊆ owned_sound (st σ) ->
          live_sounds new L
            ⊆ owned_sound
                (st (settle (onPlaybackStatusUpdate sound unload status) σ))).
Proof.
  unfold owned_sound, disciplined.
  destruct status as [[e | []] |]; unfold_handler; cbn;
    give_new; (split; [cbn; lia |]);
    try (intros _ L HL; keep_owned).
  destruct (playbackRef (st σ)) as [held|]; [| discriminate].
  intros Hd L HL. apply andb_prop in Hd. destruct Hd as [Hh Hu].
  apply Nat.eqb_eq in Hh. subst held. rewrite Hu. keep_owned.
Qed.

End OneCall.

Lemma handler_adds (σ : Sys) (e : Event) :
  exists new : list Effect,
    log (settle (handler e) σ) = log σ ++ new
    /\ (length (alerts new) <= 1)%nat
    /\ (disciplined σ e = true ->
        forall L : gset nat,
          L ⊆ owned_sound (st σ) ->
          live_sounds new L ⊆ owned_sound (st (settle (handler e) σ))).
Proof.
  destruct e as [o | o | o | o1 o2 | o | status | sound unload status];
    cbn [handler].
  - destruct (startRecording_adds σ o) as (new & H1 & H2 & H3). eauto.
  - destruct (stopRecording_adds σ o) as (new & H1 & H2 & H3). eauto.
  - destruct (playRecording_adds σ o) as (new & H1 & H2 & H3). eauto.
  - unfold recordButton_onPress, settle, gets, mbind, M_bind.
    destruct (isRecording (st σ)).
    + destruct (stopRecording_adds σ o2) as (new & H1 & H2 & H3). eauto.
    + destruct (startRecording_adds σ o1) as (new & H1 & H2 & H3). eauto.
  - unfold playButton_onPress, settle, gets, mbind, M_bind.
    destruct (playButton_disabled (st σ)); cbn.
    + exists []. rewrite app_nil_r. cbn. split; [reflexivity |].
      split; [lia | auto].
    + destruct (playRecording_adds σ o) as (new & H1 & H2 & H3). eauto.
  - destruct (onRecordingStatusUpdate_adds σ status) as (new & H1 & H2 & H3).
    eauto.
  - apply onPlaybackStatusUpdate_adds.
Qed.

Lemma handler_never_rejects (σ : Sys) (e : Event) :
  rejects (handler e) σ = false.
Proof.
  destruct e as [o | o | o | o1 o2 | o | status | sound unload status];
    cbn [handler].
  - apply startRecording_clears_isPreparing.
  - apply stopRecording_clears_isPreparing.
  - apply playRecording_clears_loadingPlay.
  - unfold recordButton_onPress, rejects, gets, mbind, M_bind.
    destruct (isRecording (st σ)).
    + apply (stopRecording_clears_isPreparing σ o2).
    + apply (startRecording_clears_isPreparing σ o1).
  - unfold playButton_onPress, rejects, gets, mbind, M_bind.
    destruct (playButton_disabled (st σ)); cbn; [reflexivity |].
    apply (playRecording_clears_loadingPlay σ o).
  - destruct status as [[] d]; reflexivity.
  - destruct status as [[e | []] |]; reflexivity.
Qed.

(** X16. Whatever the component's state and whatever the platform answers,
    a handler call, a button press or a status callback never ends in a
    rejected promise, only appends to the log, and shows at most one alert. *)
Theorem one_call_one_alert_no_rejection (e : Event) (σ : Sys) :
  rejects (handler e) σ = false /\
  exists new : list Effect,
    log (settle (handler e) σ) = log σ ++ new /\
    (length (alerts new) <= 1)%nat.
Proof.
  split; [apply handler_never_rejects |].
  destruct (handler_adds σ e) as (new & H1 & H2 & _). eauto.
Qed.

Lemma live_sounds_app (l1 l2 : list Effect) (L : gset nat) :
  live_sounds (l1 ++ l2) L = live_sounds l2 (live_sounds l1 L).
Proof. apply fold_left_app. Qed.

Lemma run_keeps_ownership (events : list Event) (σ : Sys) (L : gset nat) :
  disciplined_run events σ = true ->
  L ⊆ owned_sound (st σ) ->
  exists new : list Effect,
    log (run events σ) = log σ ++ new
    /\ live_sounds new L ⊆ owned_sound (st (run events σ)).
Proof.
  revert σ L. induction events as [| e events IH]; intros σ L Hd HL.
  - exists []. rewrite app_nil_r. auto.
  - cbn in Hd. apply andb_prop in Hd. destruct Hd as [He Hd].
    destruct (handler_adds σ e) as (new1 & Hlog1 & _ & Hown1).
    specialize (Hown1 He L HL).
    destruct (IH _ _ Hd Hown1) as (new2 & Hlog2 & Hown2).
    exists (new1 ++ new2). cbn [run fold_left]. fold (run events).
    change (fold_left (fun σ0 e0 => settle (handler e0) σ0) events)
      with (run events).
    rewrite Hlog2, Hlog1, <- app_assoc, live_sounds_app. auto.
Qed.

(** X17. Across a whole session at most one sound is loaded, and it is the
    one in the playback ref: this holds after every run of a freshly mounted
    component in which the platform reports the end of playback only for the
    sound the component holds and then unloads it successfully (handler
    calls, presses and all other statuses are unrestricted, a rejected unload
    being taken to leave the sound loaded). *)
Theorem one_sound_after_every_run (events : list Event) :
  disciplined_run events boot = true ->
  let σ := run events boot in
  live_sounds (log σ) ∅ ⊆ owned_sound (st σ) /\
  (size (live_sounds (log σ) ∅) <= 1)%nat.
Proof.
  intros Hd σ.
  destruct (run_keeps_ownership events boot ∅ Hd) as (new & Hlog & Hown).
  { cbn. reflexivity. }
  fold σ in Hlog, Hown. cbn in Hlog. subst new.
  split; [exact Hown |].
  unfold owned_sound in Hown.
  destruct (playbackRef (st σ)) as [snd|].
  - apply (size_at_most_one _ snd), Hown.
  - apply size_empty_sub, Hown.
Qed.

Lemma one_sound_after_every_run_witness :
  disciplined_run
    [CallStart Samples.start_ok; CallStop Samples.stop_ok;
     CallPlay Samples.play_ok; CallPlay Samples.play_ok;
     PlaybackStatusUpdate 4 (Resolved tt) (Some (StatusSuccess true))]
    boot = true /\
  (size (live_sounds
           (log (run
                   [CallStart Samples.start_ok; CallStop Samples.stop_ok;
                    CallPlay Samples.play_ok; CallPlay Samples.play_ok;
                    PlaybackStatusUpdate 4 (Resolved tt)
                      (Some (StatusSuccess true))] boot)) ∅) <= 1)%nat.
Proof.
  assert (H0 : disciplined_run
                 [CallStart Samples.start_ok; CallStop Samples.stop_ok;
                  CallPlay Samples.play_ok; CallPlay Samples.play_ok;
                  PlaybackStatusUpdate 4 (Resolved tt)
                    (Some (StatusSuccess true))] boot = true)
    by (vm_compute; reflexivity).
  split; [exact H0 |].
  pose proof (one_sound_after_every_run _ H0) as H.
  cbv zeta in H. destruct H as (_ & H). exact H.
Defined.

(** ** The Record button *)

(** [startRecording] ends recording exactly when every step succeeded, unless
    the component was recording before. *)
Lemma startRecording_isRecording (o : StartOracle) (σ : Sys) :
  isRecording (st (settle (startRecording o) σ)) =
    start_succeeds o || isRecording (st σ).
Proof.
  unfold start_succeeds. unfold_handler.
  destruct (permission o) as [status|e0]; cbn;
    [destruct (String.eqb status "granted"); cbn;
     [destruct (setAudioMode o) as [[]|e1]; cbn;
      [destruct (prepareToRecord o) as [[]|e2]; cbn;
       [destruct (startAsync o) as [[]|e3]; cbn | ] | ] | ] | ];
    reflexivity.
Qed.

(** X18. The Record button toggles only after a success: pressed on a
    component that is not recording it starts a recording; a second press
    stops that recording if the start succeeded, and otherwise simply tries to
    start again. *)
Theorem recordButton_two_presses (o1 o1' : StartOracle) (o2 o2' : StopOracle)
    (σ : Sys) :
  isRecording (st σ) = false ->
  run [PressRecord o1 o2; PressRecord o1' o2'] σ =
    (if start_succeeds o1
     then run [CallStart o1; CallStop o2'] σ
     else run [CallStart o1; CallStart o1'] σ).
Proof.
  intros Hrec. cbn [run fold_left handler].
  assert (H1 : settle (recordButton_onPress o1 o2) σ
               = settle (startRecording o1) σ).
  { unfold recordButton_onPress, settle, gets, mbind, M_bind.
    rewrite Hrec. reflexivity. }
  rewrite H1.
  pose proof (startRecording_isRecording o1 σ) as H2.
  rewrite Hrec, orb_false_r in H2.
  unfold recordButton_onPress at 1. unfold settle at 1, gets, mbind, M_bind.
  rewrite H2. destruct (start_succeeds o1); reflexivity.
Qed.

Lemma recordButton_two_presses_witness :
  isRecording (st boot) = false /\
  run [PressRecord Samples.start_prepare_fails Samples.stop_ok;
       PressRecord Samples.start_ok Samples.stop_ok] boot =
  run [CallStart Samples.start_prepare_fails; CallStart Samples.start_ok] boot.
Proof.
  split; [reflexivity |].
  apply (recordButton_two_presses Samples.start_prepare_fails Samples.start_ok
           Samples.stop_ok Samples.stop_ok boot).
  reflexivity.
Defined.

(** ** The permission-gated toggle *)

Import App AppRuns.

(** X19. With the permission granted, every press on the [App] button flips
    [recording] and raises no alert: after [n] presses [recording] has kept
    its value when [n] is even and changed it when [n] is odd, and the two
    labels follow it. *)
Theorem presses_with_permission (n : nat) (s : App.State) :
  granted s = true ->
  presses n s =
    ({| recording := if Nat.even n then recording s else negb (recording s);
        granted := true |}, []) /\
  (statusLabel (fst (presses n s)) = "Recording active"
   <-> buttonTitle (fst (presses n s)) = "Stop Recording").
Proof.
  intros Hg.
  assert (H : presses n s =
              ({| recording := if Nat.even n then recording s
                               else negb (recording s);
                  granted := true |}, [])).
  { revert s Hg. induction n as [| n IH]; intros [r g] Hg; cbn in Hg; subst g.
    - reflexivity.
    - cbn [presses]. unfold toggleRecording. cbn [granted recording negb].
      rewrite IH by reflexivity. cbn [recording app].
      rewrite Nat.even_succ, <- Nat.negb_even.
      destruct (Nat.even n); cbn; rewrite ?negb_involutive; reflexivity. }
  split; [exact H |].
  rewrite H. unfold statusLabel, buttonTitle. cbn.
  destruct (if Nat.even n then recording s else negb (recording s));
    split; intros E; try reflexivity; discriminate E.
Qed.

Lemma presses_with_permission_witness :
  granted (onMount (Resolved "granted") App.initial) = true /\
  presses 3 (onMount (Resolved "granted") App.initial) =
    ({| recording := true; granted := true |}, []).
Proof.
  split; [reflexivity |].
  destruct (presses_with_permission 3
              (onMount (Resolved "granted") App.initial) eq_refl) as (H & _).
  rewrite H. reflexivity.
Defined.

(** X20. [App] fails closed: unless the permission request made on mount
    resolved with exactly "granted" (so also when it rejected), no number of
    presses ever changes [recording]; each press only raises the alert. *)
Theorem presses_without_permission (request : outcome string) (n : nat) :
  request <> Resolved "granted" ->
  let s := onMount request App.initial in
  presses n s = (s, repeat "Microphone permission required" n) /\
  recording (fst (presses n s)) = false /\
  statusLabel (fst (presses n s)) = "Recording stopped".
Proof.
  intros Hreq s.
  assert (Hg : granted s = false /\ recording s = false).
  { subst s. destruct request as [status | err]; cbn; [| auto].
    split; [| reflexivity].
    apply String.eqb_neq. intros ->. apply Hreq. reflexivity. }
  destruct Hg as (Hg & Hr).
  assert (H : presses n s = (s, repeat "Microphone permission required" n)).
  { clearbody s. induction n as [| n IH]; [reflexivity |].
    cbn [presses]. unfold toggleRecording. rewrite Hg. cbn [negb].
    rewrite IH. reflexivity. }
  rewrite H. cbn [fst]. unfold statusLabel. rewrite Hr. auto.
Qed.

Lemma presses_without_permission_witness :
  Rejected "no answer" <> Resolved "granted" /\
  presses 2 (onMount (Rejected "no answer") App.initial) =
    (App.initial,
     ["Microphone permission required"; "Microphone permission required"]).
Proof.
  assert (H0 : @Rejected string "no answer" <> Resolved "granted")
    by discriminate.
  split; [exact H0 |].
  pose proof (presses_without_permission (Rejected "no answer") 2 H0) as H.
  cbv zeta in H. destruct H as (H & _). exact H.
Defined.

(** ** What the screen shows at rest *)

(** X21. After every run of a freshly mounted component the screen shows no
    spinner: the Record button carries its "Stop " or "Record " label, the
    Play button its "Playing  " or "Play " label, and the status line is never
    "Working...". *)
Theorem no_spinner_at_rest (events : list Event) :
  let s := st (run events boot) in
  recordButton_content s = Text (if isRecording s then "Stop " else "Record ")
  /\ playButton_content s = Text (if isPlaying s then "Playing  " else "Play ")
  /\ statusText s <> "Working...".
Proof.
  intros s.
  assert (H : settled s = true) by (apply run_keeps_settled; reflexivity).
  unfold settled in H. apply andb_prop in H. destruct H as [Hp Hl].
  apply negb_true_iff in Hp, Hl.
  unfold recordButton_content, playButton_content, statusText.
  rewrite Hp, Hl. split; [reflexivity |]. split; [reflexivity |].
  destruct (isRecording s); [| destruct (truthy (recordingUri s))];
    try change (String.append (String ?c ?r) ?x)
          with (String c (String.append r x));
    discriminate.
Qed.
